(** * ampt-monitor-zeek: the tail-and-parse pipeline of [ZeekAMPTMonitor]

    A shallow embedding of [ampt_monitor_zeek/plugin.py]: the log tailer
    ([_tail_logfile]), the event parser ([_parse_log]) and the main loop
    ([run]), followed by the properties of the specification.

    Conventions of the model.
    - Text is a list of 8-bit characters: the log file is read through a
      single-byte encoding, its lines end with ["\n"] and it holds no
      carriage return, so that a file offset counts characters.
    - Python objects live in a store; a dictionary is a finite map from
      keys to values, and attributes hold references into the store.
    - The logger and the queue are traces kept in the plugin state.
    - An exception is a value: every operation that can raise returns a
      [result].
    - The generator and the loop that consumes it never end; they are
      followed over finitely many passes, one state of the file per pass.
    - A [float] is a binary64 number, kept as an integer mantissa and an
      exponent and rounded as IEEE 754 rounds. *)

From Stdlib Require Import ZArith Ascii String.
From stdpp Require Import gmap strings list.

#[local] Open Scope Z_scope.
#[local] Open Scope list_scope.

(** ** Text and the [str] methods the plugin uses *)

Abbreviation text := (list ascii).

Definition lit (s : string) : text := list_ascii_of_string s.

Definition code (c : ascii) : N := N_of_ascii c.

(** [str.isspace] on one character, for the code points below 256; it is
    also the class [\s] of a [str] pattern. *)
Definition isspace (c : ascii) : bool :=
  let n := code c in
  ((9 <=? n) && (n <=? 13) || (28 <=? n) && (n <=? 32)
   || (n =? 133) || (n =? 160))%N.

(** The class [\d]: the decimal digits below code point 256. *)
Definition isdigit (c : ascii) : bool :=
  let n := code c in ((48 <=? n) && (n <=? 57))%N.

Fixpoint dropwhile (p : ascii → bool) (s : text) : text :=
  match s with
  | c :: s' => if p c then dropwhile p s' else s
  | [] => []
  end.

Definition lstrip (s : text) : text := dropwhile isspace s.
Definition rstrip (s : text) : text := rev (dropwhile isspace (rev s)).

(** [s.strip()] *)
Definition strip (s : text) : text := lstrip (rstrip s).

Fixpoint startswith (sub s : text) : bool :=
  match sub, s with
  | [], _ => true
  | a :: sub', b :: s' => bool_decide (a = b) && startswith sub' s'
  | _ :: _, [] => false
  end.

(** [sub in s] *)
Fixpoint contains (sub s : text) : bool :=
  startswith sub s ||
  match s with
  | [] => false
  | _ :: s' => contains sub s'
  end.

Definition newline : ascii := "010"%char.

(** Cuts a text into lines, each keeping its ["\n"]; [cur] is the line
    being read, reversed. *)
Fixpoint splitlines (cur : text) (s : text) : list text :=
  match s with
  | [] => match cur with [] => [] | _ => [rev cur] end
  | c :: s' =>
      if bool_decide (c = newline) then rev (c :: cur) :: splitlines [] s'
      else splitlines (c :: cur) s'
  end.

(** ** The log file *)

(** An open file: what is on disk, and the position of the handle. *)
Record file := File { content : text; offset : nat }.

Definition open (disk : text) : file := File disk 0.

(** [logfile.seek(0, 2)] *)
Definition seek_end (f : file) : file := File (content f) (length (content f)).

(** [logfile.seek(pos)] *)
Definition seek (pos : nat) (f : file) : file := File (content f) pos.

(** [logfile.tell()] *)
Definition tell (f : file) : nat := offset f.

(** [logfile.readlines()]: the lines from the handle's position on; the
    handle moves by what was read. *)
Definition readlines (f : file) : list text * file :=
  let data := drop (offset f) (content f) in
  (splitlines [] data, File (content f) (offset f + length data)%nat).

(** ** Diagnostics *)

Inductive level := DEBUG | INFO | WARNING.

Record logrec := LogRec { lvl : level; msg : string }.

(** ** The tailer, [_tail_logfile] *)

(** What the generator does between two resumptions: it logs, it hands
    a line to its consumer, or it sleeps. *)
Inductive gen_event :=
| GLog (r : logrec)
| GYield (line : text)
| GSleep (seconds : Z).

(** Default sleep period between polling logs from file (in seconds) *)
Definition LOOP_INTERVAL : Z := 3.

(** The [for line in lines] loop with its pre-filter; [sig] is
    [str(self.config['sig_name'])]. *)
Fixpoint prefilter (sig : text) (lines : list text) : list gen_event :=
  match lines with
  | [] => []
  | line :: rest =>
      GLog (LogRec DEBUG "preprocessing new line from log file") ::
      if contains sig line then
        GLog (LogRec DEBUG "log contains target sig_name %s: %s") ::
        GYield (strip line) :: prefilter sig rest
      else prefilter sig rest
  end.

(** One pass through the body of [while True]: the file as it is on disk
    during the pass and the cursor give the new cursor and what the
    generator does; [ival] is [self.interval]. *)
Definition tail_cycle (sig : text) (ival : Z) (disk : text) (pos : nat)
  : nat * list gen_event :=
  let logfile := seek_end (open disk) in
  let eof := tell logfile in
  let shorter := (eof <? pos)%nat in   (* pos > eof *)
  let warn : list gen_event :=
    if shorter
    then [GLog (LogRec WARNING "logfile got shorter, this should not happen")]
    else [] in
  let pos := if shorter then eof else pos in
  let logfile := seek pos logfile in
  let '(lines, logfile) := readlines logfile in
  let acquired : list gen_event :=
    match lines with
    | [] => []
    | _ => [GLog (LogRec DEBUG "acquired %d new %s from log file")]
    end in
  let pos := tell logfile in
  (pos,
   warn ++ acquired ++
   match lines with
   | [] => [GLog (LogRec DEBUG "no new lines acquired from log file");
            GSleep ival]
   | _ => prefilter sig lines
   end).

(** The cursor before the first pass ([pos is None]): the end of file. *)
Definition initial_pos (disk : text) : nat :=
  tell (seek_end (open disk)).

(** The raw lines a pass hands to the consumer, in order. *)
Definition yields (evs : list gen_event) : list text :=
  omap (λ ev, match ev with GYield l => Some l | _ => None end) evs.

(** The records a pass logs. *)
Definition logged (evs : list gen_event) : list logrec :=
  omap (λ ev, match ev with GLog r => Some r | _ => None end) evs.

(** The generator over the passes of its loop: [disk0] is the file when
    the generator starts (read only when [pos] is [None]), [disks] the
    file at each later pass. *)
Fixpoint tail_from (sig : text) (ival : Z) (pos : nat) (disks : list text)
  : nat * list gen_event :=
  match disks with
  | [] => (pos, [])
  | disk :: disks' =>
      let '(pos1, evs) := tail_cycle sig ival disk pos in
      let '(pos2, evs') := tail_from sig ival pos1 disks' in
      (pos2, evs ++ evs')
  end.

Definition _tail_logfile (sig : text) (ival : Z) (pos : option nat)
    (disk0 : text) (disks : list text) : nat * list gen_event :=
  let start :=
    GLog (LogRec DEBUG "beginning to tail log file %s") in
  let pos := match pos with None => initial_pos disk0 | Some p => p end in
  let '(pos', evs) := tail_from sig ival pos disks in
  (pos', start :: evs).

(** ** Regular expressions, as far as [RE_SIG_LOG] needs them *)

Inductive regex :=
| Cls (p : ascii → bool)
| Rep (p : ascii → bool) (lo : nat) (hi : option nat)
| Cat (r1 r2 : regex)
| Group (name : string) (r : regex).

Abbreviation groups := (gmap string text).

Section Matcher.
Context {R : Type}.

Definition may_repeat (hi : option nat) : bool :=
  match hi with Some O => false | _ => true end.

(** Greedy [p{lo,hi}] ([hi = None]: no upper bound): the longest run
    is tried first, and a shorter one when the rest of the pattern,
    the continuation [k], fails. *)
Fixpoint rep_match (p : ascii → bool) (lo : nat) (hi : option nat)
    (s : text) (k : text → option R) {struct s} : option R :=
  let stop := match lo with O => k s | S _ => None end in
  match s with
  | c :: s' =>
      if p c && may_repeat hi then
        match rep_match p (pred lo) (pred <$> hi) s' k with
        | Some r => Some r
        | None => stop
        end
      else stop
  | [] => stop
  end.

(** Backtracking matcher: [s] is what is left of the subject, [caps]
    the groups closed so far. *)
Fixpoint re_run (r : regex) (s : text) (caps : groups)
    (k : text → groups → option R) : option R :=
  match r with
  | Cls p =>
      match s with
      | c :: s' => if p c then k s' caps else None
      | [] => None
      end
  | Rep p lo hi => rep_match p lo hi s (λ s', k s' caps)
  | Cat r1 r2 => re_run r1 s caps (λ s1 caps1, re_run r2 s1 caps1 k)
  | Group name r1 =>
      re_run r1 s caps
        (λ s' caps',
           k s' (<[name := take (length s - length s') s]> caps'))
  end.
End Matcher.

(** [pattern.match(s)] followed, on a match, by [.groupdict()]: [None]
    when the pattern does not match at the start of [s]. *)
Definition re_match (r : regex) (s : text) : option groups :=
  re_run r s ∅ (λ _ caps, Some caps).

Definition cat (rs : list regex) : regex :=
  match rs with
  | [] => Rep (λ _, false) 0 None
  | r :: rs' => fold_left Cat rs' r
  end.

Definition d_ : ascii → bool := isdigit.
Definition s_ : ascii → bool := isspace.
Definition S_ (c : ascii) : bool := negb (isspace c).
Definition dot_ (c : ascii) : bool := bool_decide (c = "."%char).

(** Regex to extract fields from Zeek signature logs *)
Definition RE_SIG_LOG : regex :=
  cat [ Group "ts" (cat [Rep d_ 1 None; Cls dot_; Rep d_ 1 None]); Cls s_;
        Rep S_ 1 None; Cls s_;
        Group "src_addr" (Rep S_ 1 None); Cls s_;
        Group "src_port" (Rep d_ 1 (Some 5%nat)); Cls s_;
        Group "dst_addr" (Rep S_ 1 None); Cls s_;
        Group "dst_port" (Rep d_ 1 (Some 5%nat)) ].

(** ** Exceptions *)

Inductive exn :=
| AttributeError
| KeyError
| TypeError
| ValueError
| OutOfRange.  (* a timestamp [datetime] cannot hold: ValueError,
                  OverflowError or OSError, by magnitude and platform *)

#[global] Instance exn_eq_dec : EqDecision exn.
Proof. solve_decision. Defined.

Inductive result (A : Type) :=
| Return (a : A)
| Raise (e : exn).
Arguments Return {A} a.
Arguments Raise {A} e.

(** ** Python values *)

Inductive pyval :=
| VNone
| VBool (b : bool)
| VInt (z : Z)
| VStr (s : text).

Abbreviation dict := (gmap string pyval).

(** Value of a run of decimal digits, most significant first. *)
Definition int_of_digits (s : text) : Z :=
  fold_left (λ acc c, 10 * acc + (Z.of_N (code c) - 48)) s 0.

Definition all_digits (s : text) : bool :=
  match s with [] => false | _ => forallb isdigit s end.

(** [int(v)]. Of the strings, the plain digit runs are modelled; the
    groups of [RE_SIG_LOG] hold no other. *)
Definition py_int (v : pyval) : result Z :=
  match v with
  | VNone => Raise TypeError
  | VBool b => Return (if b then 1 else 0)
  | VInt z => Return z
  | VStr s => if all_digits s then Return (int_of_digits s) else Raise ValueError
  end.

(** ** [float]: the non-negative binary64 numbers *)

Definition pow2 (e : Z) : Z := 2 ^ Z.max e 0.

(** [a / b] rounded to the nearest integer, a tie to the even one. *)
Definition round_half_even (a b : Z) : Z :=
  let q := a / b in
  let r := a mod b in
  if 2 * r <? b then q
  else if b <? 2 * r then q + 1
  else if Z.even q then q else q + 1.

(** [Finite m e] is [m * 2^e]. *)
Inductive float :=
| Finite (m e : Z)
| Infinity.

(** The binade of [p / q], for [p] and [q] positive: the [k] with
    [2^k <= p / q < 2^(k+1)]. *)
Definition ilog2 (p q : Z) : Z :=
  let k := Z.log2 p - Z.log2 q in
  if p * pow2 (- k) <? q * pow2 k then k - 1 else k.

(** The binary64 number nearest to [p / q] (ties to even), for [p >= 0]
    and [q > 0]: 53 bits of mantissa, exponents down to [-1074], and
    infinity from [2^1024] on. *)
Definition round64 (p q : Z) : float :=
  if p =? 0 then Finite 0 0
  else
    let e := Z.max (ilog2 p q - 52) (-1074) in
    let m := round_half_even (p * pow2 (- e)) (q * pow2 e) in
    if pow2 1024 <=? m * pow2 e then Infinity else Finite m e.

(** Splits a numeral at its decimal point. *)
Fixpoint split_point (s : text) : text * option text :=
  match s with
  | [] => ([], None)
  | c :: s' =>
      if bool_decide (c = "."%char) then ([], Some s')
      else let '(ip, fp) := split_point s' in (c :: ip, fp)
  end.

(** [float(s)], correctly rounded. Of the spellings [float] accepts, the
    plain decimal numerals [digits] and [digits.digits] are modelled;
    group [ts] holds no other. *)
Definition py_float (s : text) : result float :=
  match split_point s with
  | (ip, Some fp) =>
      if all_digits ip && all_digits fp
      then Return (round64 (int_of_digits (ip ++ fp)) (10 ^ Z.of_nat (length fp)))
      else Raise ValueError
  | (ip, None) =>
      if all_digits ip then Return (round64 (int_of_digits ip) 1)
      else Raise ValueError
  end.

(** ** [datetime] *)

Record datetime := DateTime {
  year : Z; month : Z; day : Z;
  hour : Z; minute : Z; second : Z; microsecond : Z
}.

Definition MINYEAR : Z := 1.
Definition MAXYEAR : Z := 9999.

(** Day number since 1970-01-01 to year, month and day of the proleptic
    Gregorian calendar; years are counted from March in eras of 400
    years. *)
Definition civil_from_days (days : Z) : Z * Z * Z :=
  let z := days + 719468 in
  let era := z / 146097 in
  let doe := z mod 146097 in
  let yoe := (doe - doe / 1460 + doe / 36524 - doe / 146096) / 365 in
  let doy := doe - (365 * yoe + yoe / 4 - yoe / 100) in
  let mp := (5 * doy + 2) / 153 in
  let d := doy - (153 * mp + 2) / 5 + 1 in
  let m := if mp <? 10 then mp + 3 else mp - 9 in
  let y := yoe + era * 400 + (if m <=? 2 then 1 else 0) in
  (y, m, d).

(** [time.gmtime(t)]: year, month, day, hour, minute, second. *)
Definition gmtime (t : Z) : Z * Z * Z * Z * Z * Z :=
  let '(y, m, d) := civil_from_days (t / 86400) in
  let r := t mod 86400 in
  (y, m, d, r / 3600, r mod 3600 / 60, r mod 60).

(** The first lines of [utcfromtimestamp]: the whole seconds and the
    microseconds of [t]. *)
Definition seconds_and_micros (t : float) : result (Z * Z) :=
  match t with
  | Infinity => Raise OutOfRange
  | Finite m e =>
      (* frac, t = modf(t) *)
      let num := m * pow2 e in
      let den := pow2 (- e) in
      let t := num / den in
      let frac := num mod den in
      (* us = round(frac * 1e6) *)
      match round64 (frac * 10 ^ 6) den with
      | Infinity => Raise OutOfRange
      | Finite m' e' =>
          let us := round_half_even (m' * pow2 e') (pow2 (- e')) in
          Return (if 1000000 <=? us then (t + 1, us - 1000000)
                  else if us <? 0 then (t - 1, us + 1000000)
                  else (t, us))
      end
  end.

(** [datetime.utcfromtimestamp(t)] *)
Definition utcfromtimestamp (t : float) : result datetime :=
  match seconds_and_micros t with
  | Raise e => Raise e
  | Return (t, us) =>
      let '(y, mo, d, hh, mm, ss) := gmtime t in
      if (MINYEAR <=? y) && (y <=? MAXYEAR)
      then Return (DateTime y mo d hh mm (Z.min ss 59) us)
      else Raise OutOfRange
  end.

Definition digit_char (d : Z) : ascii := ascii_of_N (Z.to_N (48 + d)).

Fixpoint digits_from (fuel : nat) (n : Z) (acc : text) : text :=
  match fuel with
  | O => acc
  | S fuel' =>
      let acc' := digit_char (n mod 10) :: acc in
      if n / 10 =? 0 then acc' else digits_from fuel' (n / 10) acc'
  end.

(** ["%0<width>d" % n], for [n >= 0]. *)
Definition fmt_0d (width : nat) (n : Z) : text :=
  let ds := digits_from (S (Z.to_nat (Z.log2 n))) n [] in
  replicate (width - length ds) "0"%char ++ ds.

(** [dt.isoformat(timespec='seconds')] *)
Definition isoformat_seconds (dt : datetime) : text :=
  fmt_0d 4 (year dt) ++ lit "-" ++ fmt_0d 2 (month dt) ++ lit "-" ++
  fmt_0d 2 (day dt) ++ lit "T" ++ fmt_0d 2 (hour dt) ++ lit ":" ++
  fmt_0d 2 (minute dt) ++ lit ":" ++ fmt_0d 2 (second dt).

(** ** The plugin object *)

(** References into the store of objects. *)
Abbreviation loc := positive.

(** The options of [self.config] the plugin reads. *)
Record options := Options {
  path : text;
  sig_name : text;
  interval_option : option pyval
}.

Record plugin := Plugin {
  config : options;
  interval : Z;
  parsed_event : loc;          (* the attribute: a reference to a dict *)
  store : gmap loc dict;       (* the objects *)
  logger : list logrec;        (* what was logged, oldest first *)
  queue : list loc             (* what was put on the queue, oldest first *)
}.

(** Code that runs on the plugin and may raise. *)
Definition py (A : Type) : Type := plugin → plugin * result A.

#[global] Instance py_ret : MRet py := λ A a self, (self, Return a).

#[global] Instance py_bind : MBind py := λ A B f m self,
  match m self with
  | (self', Return a) => f a self'
  | (self', Raise e) => (self', Raise e)
  end.

Definition lift {A} (r : result A) : py A := λ self, (self, r).

Definition get_self : py plugin := λ self, (self, Return self).

(** [try: body / except <caught> as e: handler e] *)
Definition try_except {A} (body : py A) (caught : exn → bool)
    (handler : exn → py A) : py A := λ self,
  match body self with
  | (self', Raise e) => if caught e then handler e self' else (self', Raise e)
  | done => done
  end.

Definition log_ (l : level) (m : string) : py unit := λ self,
  (Plugin (config self) (interval self) (parsed_event self) (store self)
     (logger self ++ [LogRec l m]) (queue self), Return ()).

(** [self.queue.put(ev)] *)
Definition queue_put (ev : loc) : py unit := λ self,
  (Plugin (config self) (interval self) (parsed_event self) (store self)
     (logger self) (queue self ++ [ev]), Return ()).

(** [d.update(other)] on the entries of [other] in order. *)
Definition dict_update (d : dict) (other : list (string * pyval)) : dict :=
  foldl (λ d kv, <[kv.1 := kv.2]> d) d other.

(** [self.parsed_event.update(other)]: the object the attribute refers
    to is changed in place. *)
Definition parsed_event_update (other : list (string * pyval)) : py unit :=
  λ self,
  (Plugin (config self) (interval self) (parsed_event self)
     (alter (λ d, dict_update d other) (parsed_event self) (store self))
     (logger self) (queue self), Return ()).

(** [m.groupdict()] on the outcome of [match]: [None] has no such
    attribute. *)
Definition groupdict (m : option groups) : result groups :=
  match m with
  | Some g => Return g
  | None => Raise AttributeError
  end.

(** [g[k]] *)
Definition getitem (g : groups) (k : string) : result text :=
  match g !! k with
  | Some v => Return v
  | None => Raise KeyError
  end.

(** [g.get(k)] *)
Definition dict_get (g : groups) (k : string) : pyval :=
  match g !! k with
  | Some v => VStr v
  | None => VNone
  end.

(** ** The parser, [_parse_log] *)

(** Parse received Zeek log event into dictionary and return to caller:
    the reference to the event, or [None]. *)
Definition _parse_log (log : text) : py (option loc) :=
  parsed ← try_except
    (g ← lift (groupdict (re_match RE_SIG_LOG log)); mret (Some g))
    (λ e, bool_decide (e = ValueError))
    (λ e,
       log_ WARNING "error parsing input as delimited data (library output: %s)";;
       log_ DEBUG "faulty input data: %s";;
       mret None);
  match parsed with
  | None => mret None
  | Some log =>
      log_ DEBUG "data parsed from log: %s";;
      (* Parse Zeek timestamp *)
      ts ← lift (getitem log "ts");
      secs ← lift (py_float ts);
      _ts ← lift (utcfromtimestamp secs);
      (* Format to ISO 8601 with seconds precision *)
      let _final_ts := isoformat_seconds _ts in
      let src_addr := dict_get log "src_addr" in
      src_port ← lift (py_int (dict_get log "src_port"));
      let dest_addr := dict_get log "dst_addr" in
      dest_port ← lift (py_int (dict_get log "dst_port"));
      parsed_event_update
        [ ("alert_time", VStr _final_ts);
          ("src_addr", src_addr);
          ("src_port", VInt src_port);
          ("dest_addr", dest_addr);
          ("dest_port", VInt dest_port) ];;
      log_ DEBUG "returning event dictionary from parsed log data: %s";;
      self ← get_self;
      mret (Some (parsed_event self))
  end.

(** ** The main loop, [run] *)

(** [__init__], after the base class has set the other attributes. *)
Definition __init__ (cfg : options) (ev : loc) (objs : gmap loc dict)
  : result plugin :=
  match py_int (default (VInt LOOP_INTERVAL) (interval_option cfg)) with
  | Return n => Return (Plugin cfg n ev objs [] [])
  | Raise e => Raise e
  end.

(** The body of the [for] loop of [run] for one line of the tailer. *)
Definition run_body (zeek_log : text) : py unit :=
  parsed_event ← _parse_log zeek_log;
  match parsed_event with
  | Some ev =>
      log_ INFO "extracted new healthcheck log message from %s";;
      log_ DEBUG "parsed log event for core process: %s";;
      queue_put ev
  | None => mret ()
  end.

(** The loop of [run] driven by what the generator does. *)
Fixpoint consume (evs : list gen_event) : py unit :=
  match evs with
  | [] => mret ()
  | GLog r :: evs' => log_ (lvl r) (msg r);; consume evs'
  | GSleep _ :: evs' => consume evs'
  | GYield zeek_log :: evs' => run_body zeek_log;; consume evs'
  end.

(** Run plugin main loop, for as many passes of the tailer as [disks]
    has entries. *)
Definition run (disk0 : text) (disks : list text) : py unit :=
  log_ DEBUG "executing plugin run() method...";;
  self ← get_self;
  consume (_tail_logfile (sig_name (config self)) (interval self) None
             disk0 disks).2.

(** * Vocabulary of the properties *)

(** ** Lines and substrings *)

(** [sub] occurs in [s] as a run of consecutive characters. *)
Definition substring (sub s : text) : Prop := ∃ a b, s = a ++ sub ++ b.

(** A line without its final newline. *)
Definition chomp (l : text) : text :=
  match rev l with
  | c :: r => if bool_decide (c = newline) then rev r else l
  | [] => l
  end.

(** The lines a pass reads: those from the cursor on, or none when the
    file has become shorter than the cursor. *)
Definition lines_read (disk : text) (pos : nat) : list text :=
  (readlines (seek (if (length disk <? pos)%nat then length disk else pos)
                   (seek_end (open disk)))).1.

(** What a pass does with the lines it has read. *)
Definition pass_events (sig : text) (ival : Z) (lines : list text)
  : list gen_event :=
  match lines with
  | [] => [GLog (LogRec DEBUG "no new lines acquired from log file");
           GSleep ival]
  | _ => GLog (LogRec DEBUG "acquired %d new %s from log file")
         :: prefilter sig lines
  end.

Definition shorter_warning : logrec :=
  LogRec WARNING "logfile got shorter, this should not happen".

(** ** Matches of a pattern *)

Definition within (hi : option nat) (n : nat) : Prop :=
  match hi with Some h => (n ≤ h)%nat | None => True end.

(** What a match of [r] is: [r] takes [s] to its suffix [s'], adding to
    the groups [caps] what gives [caps']. *)
Fixpoint sem (r : regex) (s s' : text) (caps caps' : groups) : Prop :=
  match r with
  | Cls p => ∃ c, s = c :: s' ∧ p c = true ∧ caps' = caps
  | Rep p lo hi =>
      ∃ n, (lo ≤ n ≤ length s)%nat ∧ within hi n
           ∧ forallb p (take n s) = true ∧ s' = drop n s ∧ caps' = caps
  | Cat r1 r2 => ∃ s1 caps1, sem r1 s s1 caps caps1 ∧ sem r2 s1 s' caps1 caps'
  | Group name r1 =>
      ∃ caps1, sem r1 s s' caps caps1
               ∧ caps' = <[name := take (length s - length s') s]> caps1
  end.

(** ** Outcomes of the parser *)

(** The five entries [_parse_log] derives from the groups of a match, or
    the exception that stops it. *)
Definition event_fields (g : groups) : result (list (string * pyval)) :=
  match getitem g "ts" with Raise e => Raise e | Return ts =>
  match py_float ts with Raise e => Raise e | Return secs =>
  match utcfromtimestamp secs with Raise e => Raise e | Return _ts =>
  match py_int (dict_get g "src_port") with Raise e => Raise e | Return sp =>
  match py_int (dict_get g "dst_port") with Raise e => Raise e | Return dp =>
    Return [ ("alert_time", VStr (isoformat_seconds _ts));
             ("src_addr", dict_get g "src_addr");
             ("src_port", VInt sp);
             ("dest_addr", dict_get g "dst_addr");
             ("dest_port", VInt dp) ]
  end end end end end.

(** The plugin after a successful parse that derived [fs]. *)
Definition after_parse (fs : list (string * pyval)) (self : plugin) : plugin :=
  Plugin (config self) (interval self) (parsed_event self)
    (alter (λ d, dict_update d fs) (parsed_event self) (store self))
    (logger self ++
       [LogRec DEBUG "data parsed from log: %s";
        LogRec DEBUG "returning event dictionary from parsed log data: %s"])
    (queue self).

(** The plugin after the body of the loop has parsed and published an
    event with the fields [fs]. *)
Definition published (fs : list (string * pyval)) (self : plugin) : plugin :=
  Plugin (config self) (interval self) (parsed_event self)
    (store (after_parse fs self))
    (logger (after_parse fs self) ++
       [LogRec INFO "extracted new healthcheck log message from %s";
        LogRec DEBUG "parsed log event for core process: %s"])
    (queue self ++ [parsed_event self]).

(** The keys [_parse_log] writes. *)
Definition derived_keys : list string :=
  ["alert_time"; "src_addr"; "src_port"; "dest_addr"; "dest_port"].

(** ** Sample inputs *)

(** A starting plugin whose event template holds a protocol default. *)
Definition sample_plugin (sig : string) : plugin :=
  Plugin (Options (lit "/var/log/zeek/signatures.log") (lit sig) None)
    LOOP_INTERVAL 1%positive
    {[ 1%positive := {[ "protocol" := VStr (lit "tcp") ]} ]} [] [].

Definition line1 : text :=
  lit "1700000000.5 alert 10.0.0.1 443 10.0.0.2 51000 extra".
Definition line2 : text := lit "garbage no signature here".

Definition line3 : text := lit "1700000001.25 alert 10.0.0.3 80 10.0.0.4 8080".

Definition line0 : text := lit "1700000000.5 alert 10.0.0.1 0 10.0.0.2 99999".

Definition line4 : text :=
  lit "1700000000.9999999 alert 10.0.0.1 443 10.0.0.2 51000".

(** ** Dates, times and their ISO 8601 form *)

Definition is_leap (y : Z) : bool :=
  (y mod 4 =? 0) && (negb (y mod 100 =? 0) || (y mod 400 =? 0)).

Definition days_in_month (y m : Z) : Z :=
  if m =? 2 then (if is_leap y then 29 else 28)
  else if (m =? 4) || (m =? 6) || (m =? 9) || (m =? 11) then 30
  else 31.

(** The fields of a calendar date and time of day are in range. *)
Definition valid_fields (y mo d hh mm ss : Z) : bool :=
  (1 <=? mo) && (mo <=? 12) && (1 <=? d) && (d <=? days_in_month y mo)
  && (0 <=? hh) && (hh <=? 23) && (0 <=? mm) && (mm <=? 59)
  && (0 <=? ss) && (ss <=? 59).

(** Recognises [YYYY-MM-DDTHH:MM:SS]: nineteen characters, digits and
    separators in their places, the fields in range, and nothing after
    the seconds. *)
Definition is_iso8601_seconds (s : text) : bool :=
  match s with
  | [y1; y2; y3; y4; h1; m1; m2; h2; d1; d2; t;
     hh1; hh2; c1; mi1; mi2; c2; s1; s2] =>
      forallb isdigit
        [y1; y2; y3; y4; m1; m2; d1; d2; hh1; hh2; mi1; mi2; s1; s2]
      && bool_decide ([h1; h2; t; c1; c2] = lit "--T::")
      && valid_fields (int_of_digits [y1; y2; y3; y4])
           (int_of_digits [m1; m2]) (int_of_digits [d1; d2])
           (int_of_digits [hh1; hh2]) (int_of_digits [mi1; mi2])
           (int_of_digits [s1; s2])
  | _ => false
  end.

(** The seconds a timestamp text spells before its point, and the digits
    it spells after it. *)
Definition whole_seconds (ts : text) : Z := int_of_digits (split_point ts).1.

Definition fraction_digits (ts : text) : text :=
  default [] (split_point ts).2.

(** The whole seconds and the microseconds [utcfromtimestamp] makes of a
    timestamp text. *)
Definition timeval_of_text (ts : text) : result (Z * Z) :=
  match py_float ts with
  | Return secs => seconds_and_micros secs
  | Raise e => Raise e
  end.

(** The UTC date and time [n] seconds after the epoch, in ISO 8601 form
    to the second. *)
Definition iso_of_epoch (n : Z) : text :=
  let '(y, mo, d, hh, mm, ss) := gmtime n in
  isoformat_seconds (DateTime y mo d hh mm (Z.min ss 59) 0).

(** ** Checks over a finite range *)

(** [f] holds on the [n] integers from [i] on. *)
Fixpoint all_from (f : Z → bool) (n : nat) (i : Z) : bool :=
  match n with
  | O => true
  | S n' => f i && all_from f n' (i + 1)
  end.

(** The date of a day of the 400-year era, the year counted within the
    era. *)
Definition civil_of_doe (doe : Z) : Z * Z * Z :=
  let yoe := (doe - doe / 1460 + doe / 36524 - doe / 146096) / 365 in
  let doy := doe - (365 * yoe + yoe / 4 - yoe / 100) in
  let mp := (5 * doy + 2) / 153 in
  let d := doy - (153 * mp + 2) / 5 + 1 in
  let m := if mp <? 10 then mp + 3 else mp - 9 in
  (yoe + (if m <=? 2 then 1 else 0), m, d).

Definition valid_date (ymd : Z * Z * Z) : bool :=
  let '(y, m, d) := ymd in
  (1 <=? m) && (m <=? 12) && (1 <=? d) && (d <=? days_in_month y m).

(** One pass over the days of an era checks the date and the year. *)
Definition doe_checks (doe : Z) : bool :=
  let date := civil_of_doe doe in
  valid_date date && (0 <=? date.1.1) && (date.1.1 <=? 400).

(** A field is printed on [w] digits that read back as the field. *)
Definition fmt_checks (w : nat) (n : Z) : bool :=
  let s := fmt_0d w n in
  (length s =? w)%nat && forallb isdigit s && (int_of_digits s =? n).

(** ** Files that grow, and well-formed lines *)

(** The file after each of a series of appends to [disk]. *)
Fixpoint grow (disk : text) (adds : list text) : list text :=
  match adds with
  | [] => []
  | a :: adds' => (disk ++ a) :: grow (disk ++ a) adds'
  end.

(** The sleeps of a pass. *)
Definition sleeps (evs : list gen_event) : list Z :=
  omap (λ ev, match ev with GSleep n => Some n | _ => None end) evs.

(** A field of a line: not empty and without whitespace. *)
Definition token (s : text) : bool :=
  match s with [] => false | _ => forallb S_ s end.

(** A port as the pattern takes it: one to five digits. *)
Definition port_digits (s : text) : bool :=
  all_digits s && (length s <=? 5)%nat.

(** A line of the signature log: timestamp, one field, the two
    addresses each before its port, single whitespace characters in
    between, and whatever follows. *)
Definition zeek_line (ip fp uid sa sp da dp : text)
    (w1 w2 w3 w4 w5 : ascii) (rest : text) : text :=
  ip ++ "."%char :: fp ++ w1 :: uid ++ w2 :: sa ++ w3 :: sp ++ w4 :: da
     ++ w5 :: dp ++ rest.

(** The digits of the last port end where [rest] begins. *)
Definition port_ends (dp rest : text) : Prop :=
  length dp = 5%nat ∨ match rest with [] => True | c :: _ => isdigit c = false end.

(** The groups of such a line. *)
Definition zeek_groups (ip fp sa sp da dp : text) : groups :=
  <["dst_port" := dp]> (<["dst_addr" := da]> (<["src_port" := sp]>
    (<["src_addr" := sa]> (<["ts" := ip ++ "."%char :: fp]> ∅)))).

(** The fields and separators are those of a line the pattern takes. *)
Definition well_formed (ip fp uid sa sp da dp : text)
    (w1 w2 w3 w4 w5 : ascii) (rest : text) : Prop :=
  all_digits ip = true ∧ all_digits fp = true ∧ token uid = true
  ∧ token sa = true ∧ port_digits sp = true
  ∧ token da = true ∧ port_digits dp = true
  ∧ forallb isspace [w1; w2; w3; w4; w5] = true
  ∧ port_ends dp rest.

(** * Properties *)

(** ** The model on sample inputs *)

Example re_match_sample :
  re_match RE_SIG_LOG (lit "1700000000.5 alert 10.0.0.1 443 10.0.0.2 51000 extra")
  = Some (<["ts" := lit "1700000000.5"]>
          (<["src_addr" := lit "10.0.0.1"]>
          (<["src_port" := lit "443"]>
          (<["dst_addr" := lit "10.0.0.2"]>
          (<["dst_port" := lit "51000"]> ∅))))).
Proof. vm_compute. reflexivity. Qed.

Example re_match_prefix :
  re_match RE_SIG_LOG (lit "1.0 a b 7 d 123456")
  = Some (<["ts" := lit "1.0"]>
          (<["src_addr" := lit "b"]>
          (<["src_port" := lit "7"]>
          (<["dst_addr" := lit "d"]>
          (<["dst_port" := lit "12345"]> ∅))))).
Proof. vm_compute. reflexivity. Qed.

Example float_half : py_float (lit "1700000000.5") = Return (Finite 7130316802097152 (-22)).
Proof. vm_compute. reflexivity. Qed.

Example float_tenth : py_float (lit "0.1") = Return (Finite 7205759403792794 (-56)).
Proof. vm_compute. reflexivity. Qed.

Example timeval_half :
  timeval_of_text (lit "1700000000.5") = Return (1700000000, 500000).
Proof. vm_compute. reflexivity. Qed.

Example timeval_six_nines :
  timeval_of_text (lit "1700000000.999999") = Return (1700000000, 999999).
Proof. vm_compute. reflexivity. Qed.

Example timeval_seven_nines :
  timeval_of_text (lit "1700000000.9999999") = Return (1700000001, 0).
Proof. vm_compute. reflexivity. Qed.

Example timeval_rounds_to_even :
  timeval_of_text (lit "0.0000015") = Return (0, 2).
Proof. vm_compute. reflexivity. Qed.

Example timeval_carries :
  timeval_of_text (lit "0.9999995") = Return (1, 0).
Proof. vm_compute. reflexivity. Qed.

Example timeval_year_2286 :
  timeval_of_text (lit "9999999999.999999") = Return (9999999999, 999998).
Proof. vm_compute. reflexivity. Qed.

Example timeval_year_2603 :
  timeval_of_text (lit "20000000000.999999") = Return (20000000001, 0).
Proof. vm_compute. reflexivity. Qed.

Example timestamp_too_large :
  (match py_float (lit "253402300799.99999999") with
   | Return secs => utcfromtimestamp secs
   | Raise e => Raise e
   end) = Raise OutOfRange.
Proof. vm_compute. reflexivity. Qed.

(** ** Substrings and stripping *)

Lemma startswith_spec sub s : startswith sub s = true ↔ ∃ b, s = sub ++ b.
Proof.
  revert s. induction sub as [|a sub IH]; intros s; simpl.
  - split; [eauto | done].
  - destruct s as [|c s]; simpl.
    + split; [done | intros [b Hb]; discriminate].
    + rewrite andb_true_iff, bool_decide_eq_true, IH. split.
      * intros [-> [b ->]]. eauto.
      * intros [b Hb]. injection Hb as -> ->. eauto.
Qed.

Lemma contains_spec sub s : contains sub s = true ↔ substring sub s.
Proof.
  unfold substring. induction s as [|c s IH].
  - simpl. rewrite orb_false_r, startswith_spec. split.
    + intros [b Hb]. exists [], b. done.
    + intros [a [b Hab]]. destruct a; simpl in Hab; [eauto | discriminate].
  - cbn [contains]. rewrite orb_true_iff, startswith_spec, IH. split.
    + intros [[b Hb] | [a [b Hab]]].
      * exists [], b. done.
      * exists (c :: a), b. simpl. by f_equal.
    + intros [a [b Hab]]. destruct a as [|c' a]; simpl in Hab.
      * left. eauto.
      * right. injection Hab as _ ->. eauto.
Qed.

#[global] Instance substring_dec sub s : Decision (substring sub s).
Proof.
  refine (cast_if (decide (contains sub s = true))); by rewrite <- contains_spec.
Defined.

Lemma dropwhile_split p s :
  ∃ a, s = a ++ dropwhile p s ∧ forallb p a = true.
Proof.
  induction s as [|c s [a [Ha Hp]]]; simpl.
  - by exists [].
  - destruct (p c) eqn:Hc.
    + exists (c :: a). simpl. rewrite Hc, Hp. split; [by f_equal | done].
    + by exists [].
Qed.

Lemma dropwhile_head p s c s' : dropwhile p s = c :: s' → p c = false.
Proof.
  induction s as [|x s IH]; simpl; [done |].
  destruct (p x) eqn:Hx; [done |]. intros [= -> _]. done.
Qed.

(** [strip] removes a run of whitespace at each end and nothing else,
    and what is left neither begins nor ends with whitespace. *)
Lemma strip_spec s :
  ∃ a b, s = a ++ strip s ++ b
         ∧ forallb isspace a = true ∧ forallb isspace b = true
         ∧ (∀ c r, strip s = c :: r → isspace c = false)
         ∧ (∀ c r, strip s = r ++ [c] → isspace c = false).
Proof.
  unfold strip, lstrip, rstrip.
  destruct (dropwhile_split isspace (rev s)) as [b' [Hb' Hpb]].
  set (t := dropwhile isspace (rev s)) in *.
  destruct (dropwhile_split isspace (rev t)) as [a [Ha Hpa]].
  exists a, (rev b'). repeat split.
  - rewrite app_assoc, <- Ha.
    rewrite <- (rev_involutive s), Hb', rev_app_distr. done.
  - done.
  - rewrite forallb_forall in *. intros x Hx. apply Hpb. by apply in_rev.
  - intros c r. apply dropwhile_head.
  - intros c r Hr. rewrite Hr, app_assoc in Ha.
    apply (f_equal (@rev ascii)) in Ha.
    rewrite rev_involutive, rev_app_distr in Ha. simpl in Ha.
    by apply dropwhile_head in Ha.
Qed.

Lemma forallb_app_inv (p : ascii → bool) u v :
  forallb p (u ++ v) = true → forallb p u = true ∧ forallb p v = true.
Proof. rewrite forallb_app, andb_true_iff. done. Qed.

(** A signature that [strip] leaves alone survives the stripping of the
    line it occurs in. *)
Lemma strip_keeps_substring sig l :
  strip sig = sig → substring sig l → substring sig (strip l).
Proof.
  intros Hsig [x [y Hl]].
  destruct (strip_spec sig) as (a0 & b0 & _ & _ & _ & Hhead & Hlast).
  rewrite Hsig in Hhead, Hlast.
  destruct (strip_spec l) as (a & b & Hab & Ha & Hb & _).
  destruct sig as [|c sig']; [by exists [], (strip l) |].
  assert (Hc : isspace c = false) by eauto.
  destruct (exists_last (l := c :: sig')) as (sig0 & c' & Hsig0); [done |].
  assert (Hc' : isspace c' = false) by eauto.
  pose proof (eq_trans (eq_sym Hl) Hab) as Heq. clear Hl Hab.
  (* the front: [a] ends before the occurrence starts *)
  assert (Hfront : ∃ x', strip l ++ b = x' ++ (c :: sig') ++ y).
  { apply app_eq_app in Heq as [l' [[Hx Hs] | [Ha' Hs]]].
    - eauto.
    - destruct l' as [|d l'].
      + exists []. simpl in *. done.
      + simpl in Hs. injection Hs as -> Hs. subst a.
        apply forallb_app_inv in Ha as [_ Ha]. simpl in Ha.
        by rewrite Hc in Ha. }
  destruct Hfront as [x' Hfront].
  (* the back: [b] starts after the occurrence ends *)
  rewrite (app_assoc x') in Hfront.
  apply app_eq_app in Hfront as [l2 [[Hs Hy] | [Hs Hb']]].
  - exists x', l2. by rewrite Hs, <- app_assoc.
  - destruct (decide (l2 = [])) as [-> | Hne].
    + exists x', []. rewrite app_nil_r in Hs. by rewrite app_nil_r.
    + destruct (exists_last Hne) as (l3 & d & ->).
      rewrite Hsig0 in Hs. rewrite !app_assoc in Hs.
      apply app_inj_tail in Hs as [_ ->].
      subst b. apply forallb_app_inv in Hb as [Hb _].
      apply forallb_app_inv in Hb as [_ Hb]. simpl in Hb.
      by rewrite Hc' in Hb.
Qed.

(** ** The tailer *)

(** A pass always leaves the cursor at the end of the file. *)
Lemma tail_cycle_pos sig ival disk pos :
  (tail_cycle sig ival disk pos).1 = length disk.
Proof.
  unfold tail_cycle, readlines, tell, seek, seek_end, open. simpl.
  destruct (Nat.ltb_spec (length disk) pos); simpl.
  - rewrite length_drop. lia.
  - rewrite length_drop. lia.
Qed.

(** A pass whose cursor is within the file. *)
Lemma tail_cycle_within sig ival disk pos :
  (pos ≤ length disk)%nat →
  tail_cycle sig ival disk pos
  = (length disk, pass_events sig ival (splitlines [] (drop pos disk))).
Proof.
  intros Hpos. unfold tail_cycle, readlines, tell, seek, seek_end, open. simpl.
  destruct (Nat.ltb_spec (length disk) pos); [lia |]. simpl.
  rewrite length_drop. f_equal; [lia |].
  unfold pass_events. by destruct (splitlines [] (drop pos disk)).
Qed.

(** A pass that finds the file shorter than its cursor. *)
Lemma tail_cycle_shorter sig ival disk pos :
  (length disk < pos)%nat →
  tail_cycle sig ival disk pos
  = (length disk,
     [GLog (LogRec WARNING "logfile got shorter, this should not happen");
      GLog (LogRec DEBUG "no new lines acquired from log file");
      GSleep ival]).
Proof.
  intros Hpos. unfold tail_cycle, readlines, tell, seek, seek_end, open. simpl.
  destruct (Nat.ltb_spec (length disk) pos); [| lia]. simpl.
  rewrite length_drop, drop_all. simpl. f_equal. lia.
Qed.

Lemma yields_prefilter sig lines :
  yields (prefilter sig lines) = strip <$> filter (substring sig) lines.
Proof.
  induction lines as [|l lines IH]; [done |].
  cbn [prefilter]. rewrite filter_cons.
  destruct (decide (substring sig l)) as [Hl | Hl].
  - apply contains_spec in Hl. rewrite Hl. cbn. by rewrite <- IH.
  - destruct (contains sig l) eqn:Hc; [by apply contains_spec in Hc |]. done.
Qed.

Lemma yields_pass_events sig ival lines :
  yields (pass_events sig ival lines) = strip <$> filter (substring sig) lines.
Proof.
  destruct lines as [|l lines]; [done |].
  unfold pass_events. rewrite <- yields_prefilter. done.
Qed.

Lemma tail_cycle_events sig ival disk pos :
  yields (tail_cycle sig ival disk pos).2
  = strip <$> filter (substring sig) (lines_read disk pos).
Proof.
  unfold lines_read. destruct (Nat.ltb_spec (length disk) pos) as [Hlt | Hle].
  - rewrite tail_cycle_shorter by done.
    unfold readlines, seek, seek_end, open. simpl. by rewrite drop_all.
  - rewrite tail_cycle_within by done. cbn [snd].
    rewrite yields_pass_events. done.
Qed.

(** Without a line handed over, the loop of [run] only logs: it does not
    raise, and it touches neither the queue nor the objects. *)
Lemma consume_no_yield evs self :
  yields evs = [] →
  (consume evs self).2 = Return ()
  ∧ queue (consume evs self).1 = queue self
  ∧ store (consume evs self).1 = store self
  ∧ parsed_event (consume evs self).1 = parsed_event self.
Proof.
  revert self. induction evs as [|ev evs IH]; intros self Hy; [done |].
  destruct ev as [r | l | n]; cbn in Hy; [| done |].
  - specialize (IH (log_ (lvl r) (msg r) self).1 Hy). exact IH.
  - exact (IH self Hy).
Qed.

(** C3. When a pass finds the end of file before its cursor, the cursor
    becomes the end of file, a record of level WARNING is logged, no line
    is handed over and the loop of [run] gets through the pass without an
    exception; the next pass reads exactly what the file has gained. *)
Theorem truncation_resets_cursor sig ival disk pos :
  (length disk < pos)%nat →
  let eof := tell (seek_end (open disk)) in
  let '(pos', evs) := tail_cycle sig ival disk pos in
  pos' = eof
  ∧ shorter_warning ∈ logged evs
  ∧ yields evs = []
  ∧ (∀ self, (consume evs self).2 = Return ())
  ∧ (∀ more, tail_cycle sig ival (disk ++ more) pos'
             = (length (disk ++ more),
                pass_events sig ival (splitlines [] more))).
Proof.
  intros Hpos. rewrite tail_cycle_shorter by done. cbv beta iota zeta.
  split; [done |]. split; [apply list_elem_of_here |]. split; [done |]. split.
  - intros self. by apply consume_no_yield.
  - intros more. rewrite tail_cycle_within by (rewrite length_app; lia).
    by rewrite drop_app_length.
Qed.

(** The scenario of a file cut from 500 to 100 characters. *)
Lemma truncation_resets_cursor_witness :
  let disk := replicate 100 "a"%char in
  (length disk < 500)%nat
  ∧ (tail_cycle [] 3 disk 500).1 = 100%nat
  ∧ shorter_warning ∈ logged (tail_cycle [] 3 disk 500).2.
Proof.
  cbv zeta.
  pose proof (truncation_resets_cursor [] 3 (replicate 100 "a"%char) 500) as H.
  assert (Hlt : (length (replicate 100 "a"%char) < 500)%nat)
    by (rewrite length_replicate; lia).
  specialize (H Hlt). cbv zeta in H.
  destruct (tail_cycle [] 3 (replicate 100 "a"%char) 500) as [pos' evs].
  destruct H as (H1 & H2 & _).
  split; [exact Hlt | split; [exact H1 | exact H2]].
Defined.

(** C7. After a pass over the file, two more passes over the same file
    hand over no line (they read none) and leave the cursor where the
    first pass put it. *)
Theorem polling_unchanged_file_idempotent sig ival disk pos :
  let pos1 := (tail_cycle sig ival disk pos).1 in
  let '(pos2, evs2) := tail_cycle sig ival disk pos1 in
  let '(pos3, evs3) := tail_cycle sig ival disk pos2 in
  lines_read disk pos1 = [] ∧ yields evs2 = [] ∧ pos2 = pos1
  ∧ lines_read disk pos2 = [] ∧ yields evs3 = [] ∧ pos3 = pos1.
Proof.
  cbv zeta. rewrite tail_cycle_pos.
  rewrite tail_cycle_within by done. cbv beta iota zeta.
  rewrite tail_cycle_within by done. cbv beta iota zeta.
  unfold lines_read, readlines, seek, seek_end, open. cbn [offset content fst].
  rewrite Nat.ltb_irrefl, drop_all. done.
Qed.

(** The same from the cursor the generator starts with. *)
Lemma polling_from_start_idempotent sig ival disk :
  tail_cycle sig ival disk (initial_pos disk)
  = (initial_pos disk, pass_events sig ival []).
Proof.
  unfold initial_pos, tell, seek_end, open. cbn [offset content].
  rewrite tail_cycle_within by done. by rewrite drop_all.
Qed.

(** C6. Of the lines a pass reads, those in which the signature occurs
    as a run of consecutive, equal characters are handed over (stripped),
    in order; the others are not. *)
Theorem tailer_yields_iff_signature sig ival disk pos :
  yields (tail_cycle sig ival disk pos).2
  = strip <$> filter (substring sig) (lines_read disk pos)
  ∧ (∀ l, contains sig l = true ↔ substring sig l).
Proof.
  split; [apply tail_cycle_events | intros l; apply contains_spec].
Qed.

Example signature_is_case_sensitive :
  yields (tail_cycle (lit "alert") 3 (lit "1.5 ALERT a 1 b 2" ++ [newline]) 0).2 = [].
Proof. vm_compute. reflexivity. Qed.

(** C9, as stated, fails: blanks at either end of the line go too. *)
Lemma rawline_not_only_newline_stripped :
  let line := lit "  alert x " ++ [newline] in
  lines_read line 0 = [line]
  ∧ yields (tail_cycle (lit "alert") 3 line 0).2 = [lit "alert x"]
  ∧ chomp line = lit "  alert x "
  ∧ yields (tail_cycle (lit "alert") 3 line 0).2 ≠ [chomp line].
Proof. vm_compute. repeat split; done. Qed.

(** C9, amended. Every line handed over is a line read in the pass with
    the whitespace at both its ends removed and nothing else changed; the
    signature occurs in the line read, and in the line handed over when
    [strip] leaves the signature alone. *)
Theorem rawline_is_stripped_line sig ival disk pos raw :
  raw ∈ yields (tail_cycle sig ival disk pos).2 →
  ∃ l a b,
    l ∈ lines_read disk pos
    ∧ raw = strip l
    ∧ l = a ++ raw ++ b
    ∧ forallb isspace a = true ∧ forallb isspace b = true
    ∧ (∀ c r, raw = c :: r → isspace c = false)
    ∧ (∀ c r, raw = r ++ [c] → isspace c = false)
    ∧ substring sig l
    ∧ (strip sig = sig → substring sig raw).
Proof.
  rewrite tail_cycle_events. intros Hraw.
  apply list_elem_of_fmap in Hraw as [l [-> Hl]].
  apply list_elem_of_filter in Hl as [Hsub Hl].
  destruct (strip_spec l) as (a & b & Hab & Ha & Hb & Hhead & Hlast).
  exists l, a, b. repeat split; try done.
  intros Hsig. by apply strip_keeps_substring.
Qed.

Lemma rawline_is_stripped_line_witness :
  let line := lit "  alert x " ++ [newline] in
  lit "alert x" ∈ yields (tail_cycle (lit "alert") 3 line 0).2
  ∧ substring (lit "alert") (lit "alert x").
Proof.
  assert (Hin : lit "alert x"
    ∈ yields (tail_cycle (lit "alert") 3 (lit "  alert x " ++ [newline]) 0).2)
    by (vm_compute; apply list_elem_of_here).
  split; [exact Hin |].
  destruct (rawline_is_stripped_line _ _ _ _ _ Hin)
    as (l & a & b & _ & _ & _ & _ & _ & _ & _ & _ & Hsub).
  apply Hsub. reflexivity.
Defined.

(** ** The pattern *)

Lemma rep_match_sound {R} p lo hi s (k : text → option R) x :
  rep_match p lo hi s k = Some x →
  ∃ n, (lo ≤ n ≤ length s)%nat ∧ within hi n
       ∧ forallb p (take n s) = true ∧ k (drop n s) = Some x.
Proof.
  revert lo hi. induction s as [|c s IH]; intros lo hi; cbn [rep_match].
  - destruct lo; [| done]. intros Hk. exists 0%nat.
    repeat split; try done. destruct hi; simpl; lia.
  - assert (Hstop : match lo with 0%nat => k (c :: s) | S _ => None end = Some x →
      ∃ n, (lo ≤ n ≤ length (c :: s))%nat ∧ within hi n
           ∧ forallb p (take n (c :: s)) = true ∧ k (drop n (c :: s)) = Some x).
    { destruct lo; [| done]. intros Hk. exists 0%nat.
      repeat split; try done; simpl; try lia. destruct hi; simpl; lia. }
    destruct (p c && may_repeat hi) eqn:Hpc; [| exact Hstop].
    apply andb_true_iff in Hpc as [Hc Hhi].
    destruct (rep_match p (pred lo) (pred <$> hi) s k) eqn:Hinner;
      [| exact Hstop].
    intros [= ->]. apply IH in Hinner as (n & Hn & Hw & Hp & Hk).
    exists (S n). repeat split.
    + lia.
    + simpl. lia.
    + destruct hi as [[|h] |]; simpl in *; try done. lia.
    + simpl. by rewrite Hc, Hp.
    + done.
Qed.

Lemma re_run_sound {R} r s caps (k : text → groups → option R) x :
  re_run r s caps k = Some x →
  ∃ s' caps', sem r s s' caps caps' ∧ k s' caps' = Some x.
Proof.
  revert s caps k. induction r as [p | p lo hi | r1 IH1 r2 IH2 | name r1 IH1];
    intros s caps k; cbn [re_run sem].
  - destruct s as [|c s]; [done |]. destruct (p c) eqn:Hc; [| done].
    intros Hk. exists s, caps. eauto.
  - intros H. apply rep_match_sound in H as (n & Hn & Hw & Hp & Hk).
    exists (drop n s), caps. split; [| done]. exists n. done.
  - intros H. apply IH1 in H as (s1 & caps1 & H1 & H).
    apply IH2 in H as (s' & caps' & H2 & Hk). eauto 8.
  - intros H. apply IH1 in H as (s' & caps1 & H1 & Hk). eauto 8.
Qed.

(** Digit runs. *)
Lemma isdigit_value c :
  isdigit c = true → 0 ≤ Z.of_N (code c) - 48 ≤ 9.
Proof.
  unfold isdigit. rewrite andb_true_iff, !N.leb_le. lia.
Qed.

Lemma int_of_digits_snoc s c :
  int_of_digits (s ++ [c]) = 10 * int_of_digits s + (Z.of_N (code c) - 48).
Proof. unfold int_of_digits. by rewrite fold_left_app. Qed.

Lemma int_of_digits_app a b :
  int_of_digits (a ++ b)
  = int_of_digits a * 10 ^ Z.of_nat (length b) + int_of_digits b.
Proof.
  induction b as [|c b IH] using rev_ind.
  - rewrite app_nil_r. simpl. unfold int_of_digits at 3. simpl. lia.
  - rewrite app_assoc, !int_of_digits_snoc, IH, length_app. simpl.
    rewrite Nat2Z.inj_add, Z.pow_add_r by lia. lia.
Qed.

Lemma int_of_digits_bound s :
  forallb isdigit s = true → 0 ≤ int_of_digits s < 10 ^ Z.of_nat (length s).
Proof.
  induction s as [|c s IH] using rev_ind; intros Hs.
  - unfold int_of_digits. simpl. lia.
  - apply forallb_app_inv in Hs as [Hs Hc]. simpl in Hc.
    rewrite andb_true_r in Hc. apply isdigit_value in Hc.
    specialize (IH Hs). rewrite int_of_digits_snoc, length_app. simpl.
    rewrite Nat2Z.inj_add, Z.pow_add_r by lia. lia.
Qed.

Lemma all_digits_take n s :
  (1 ≤ n ≤ length s)%nat → forallb isdigit (take n s) = true →
  all_digits (take n s) = true.
Proof.
  intros Hn Hp. unfold all_digits.
  destruct (take n s) eqn:Ht; [| done].
  apply (f_equal length) in Ht. rewrite length_take in Ht. simpl in Ht. lia.
Qed.

Lemma all_digits_forallb s : all_digits s = true → forallb isdigit s = true.
Proof. by destruct s. Qed.

Lemma take_prefix_of (a b s : text) :
  s = a ++ b → take (length s - length b) s = a.
Proof.
  intros ->. rewrite length_app.
  replace (length a + length b - length b)%nat with (length a) by lia.
  apply take_app_length.
Qed.

(** The groups of a match of [RE_SIG_LOG]: the timestamp is two digit
    runs around a point, and each port is a run of one to five digits. *)
Lemma RE_SIG_LOG_groups log g :
  re_match RE_SIG_LOG log = Some g →
  ∃ ip fp sa sp da dp,
    g = <["dst_port" := dp]> (<["dst_addr" := da]> (<["src_port" := sp]>
          (<["src_addr" := sa]> (<["ts" := ip ++ "."%char :: fp]> ∅))))
    ∧ all_digits ip = true ∧ all_digits fp = true
    ∧ all_digits sp = true ∧ (length sp ≤ 5)%nat
    ∧ all_digits dp = true ∧ (length dp ≤ 5)%nat
    ∧ (∃ rest, log = ip ++ "."%char :: fp ++ rest).
Proof.
  unfold re_match. intros H.
  apply re_run_sound in H as (s' & caps' & H & [= <-]).
  cbn in H.
  destruct H as (s1 & caps1 & A1
    & (caps2' & (ndp & Hndp & Hwdp & Hdp & Hs' & Hc2') & Hcaps')).
  destruct A1 as (s2 & caps2 & A2 & (c2 & Hs2 & _ & Hcaps1)).
  destruct A2 as (s3 & caps3 & A3
    & (caps4' & (nda & Hnda & _ & _ & Hs2' & Hc4') & Hcaps2)).
  destruct A3 as (s4 & caps4 & A4 & (c4 & Hs4 & _ & Hcaps3)).
  destruct A4 as (s5 & caps5 & A5
    & (caps6' & (nsp & Hnsp & Hwsp & Hsp & Hs4' & Hc6') & Hcaps4)).
  destruct A5 as (s6 & caps6 & A6 & (c6 & Hs6 & _ & Hcaps5)).
  destruct A6 as (s7 & caps7 & A7
    & (caps8' & (nsa & Hnsa & _ & _ & Hs6' & Hc8') & Hcaps6)).
  destruct A7 as (s8 & caps8 & A8 & (c8 & Hs8 & _ & Hcaps7)).
  destruct A8 as (s9 & caps9 & A9 & (n9 & _ & _ & _ & Hs8' & Hcaps8)).
  destruct A9 as (s10 & caps10 & A10 & (c10 & Hs10 & _ & Hcaps9)).
  destruct A10 as (caps11 & B & Hcaps10).
  destruct B as (s11 & caps12 & B1
    & (nfp & Hnfp & _ & Hfp & Hs10' & Hcaps11)).
  destruct B1 as (s12 & caps13 & (nip & Hnip & _ & Hip & Hs12 & Hcaps13)
    & (c & Hs12' & Hdot & Hcaps12)).
  apply bool_decide_eq_true in Hdot as ->.
  subst caps13 caps12 caps11 caps10 caps9 caps8 caps7 caps8' caps6 caps5
    caps6' caps4 caps3 caps4' caps2 caps1 caps2' caps'.
  assert (Hlog : log = (take nip log ++ "."%char :: take nfp s11) ++ s10).
  { rewrite <- (take_drop nip log) at 1. rewrite <- Hs12, Hs12'.
    rewrite <- (take_drop nfp s11) at 1. rewrite <- Hs10'.
    by rewrite <- app_assoc. }
  exists (take nip log), (take nfp s11), (take (length s7 - length s6) s7),
    (take nsp s5), (take (length s3 - length s2) s3), (take ndp s1).
  split; [| repeat split].
  - f_equal.
    { apply take_prefix_of. rewrite Hs'. symmetry. apply take_drop. }
    f_equal. f_equal.
    { apply take_prefix_of. rewrite Hs4'. symmetry. apply take_drop. }
    f_equal. f_equal. by apply take_prefix_of.
  - by apply all_digits_take.
  - by apply all_digits_take.
  - by apply all_digits_take.
  - rewrite length_take. simpl in Hwsp. lia.
  - by apply all_digits_take.
  - rewrite length_take. simpl in Hwdp. lia.
  - exists s10. rewrite Hlog at 1. by rewrite <- app_assoc.
Qed.

(** ** The parser *)

(** The three ways through [_parse_log]: no match, a match whose
    timestamp [datetime] refuses, and a parsed event. The handler of
    [ValueError] is never entered. *)
Lemma _parse_log_cases log self :
  _parse_log log self =
  match re_match RE_SIG_LOG log with
  | None => (self, Raise AttributeError)
  | Some g =>
      match event_fields g with
      | Raise e => ((log_ DEBUG "data parsed from log: %s" self).1, Raise e)
      | Return fs => (after_parse fs self, Return (Some (parsed_event self)))
      end
  end.
Proof.
  unfold _parse_log, event_fields, mbind, py_bind, try_except, lift, groupdict,
    mret, py_ret.
  destruct (re_match RE_SIG_LOG log) as [g |]; [| reflexivity].
  cbn [log_ fst snd].
  destruct (getitem g "ts") as [ts | e]; [| done].
  destruct (py_float ts) as [secs | e]; [| done].
  destruct (utcfromtimestamp secs) as [_ts | e]; [| done].
  destruct (py_int (dict_get g "src_port")) as [sp | e]; [| done].
  destruct (py_int (dict_get g "dst_port")) as [dp | e]; [| done].
  cbv [after_parse parsed_event_update log_ get_self].
  cbn [config interval parsed_event store logger queue].
  by rewrite <- app_assoc.
Qed.

(** C1: the code does not do what the claim says. A line that holds the
    signature but not the shape of [RE_SIG_LOG] makes [match] answer
    [None], and [None.groupdict()] raises AttributeError, which
    [except ValueError] lets through: [_parse_log] raises, and so does
    [run], with nothing put on the queue. *)
Theorem malformed_line_raises_AttributeError :
  let line := lit "garbage alert here" in
  let self := sample_plugin "alert" in
  contains (sig_name (config self)) line = true
  ∧ re_match RE_SIG_LOG line = None
  ∧ (_parse_log line self).2 = Raise AttributeError
  ∧ (run [] [line ++ [newline]] self).2 = Raise AttributeError
  ∧ queue (run [] [line ++ [newline]] self).1 = [].
Proof. vm_compute. repeat split; reflexivity. Qed.

(** Every line without a match does the same. *)
Lemma unmatched_line_raises log self :
  re_match RE_SIG_LOG log = None →
  _parse_log log self = (self, Raise AttributeError).
Proof. intros H. by rewrite _parse_log_cases, H. Qed.

(** [_parse_log] has no path to [None]. *)
Lemma _parse_log_never_None log self :
  (_parse_log log self).2 ≠ Return None.
Proof.
  rewrite _parse_log_cases.
  destruct (re_match RE_SIG_LOG log); [| done].
  by destruct (event_fields g).
Qed.

Lemma event_fields_success g fs :
  event_fields g = Return fs →
  ∃ ts secs dt sp dp,
    getitem g "ts" = Return ts ∧ py_float ts = Return secs
    ∧ utcfromtimestamp secs = Return dt
    ∧ py_int (dict_get g "src_port") = Return sp
    ∧ py_int (dict_get g "dst_port") = Return dp
    ∧ fs = [ ("alert_time", VStr (isoformat_seconds dt));
             ("src_addr", dict_get g "src_addr");
             ("src_port", VInt sp);
             ("dest_addr", dict_get g "dst_addr");
             ("dest_port", VInt dp) ].
Proof.
  unfold event_fields.
  destruct (getitem g "ts") as [ts | e] eqn:E1; [| done].
  destruct (py_float ts) as [secs | e] eqn:E2; [| done].
  destruct (utcfromtimestamp secs) as [dt | e] eqn:E3; [| done].
  destruct (py_int (dict_get g "src_port")) as [sp | e] eqn:E4; [| done].
  destruct (py_int (dict_get g "dst_port")) as [dp | e] eqn:E5; [| done].
  intros [= <-]. by exists ts, secs, dt, sp, dp.
Qed.

(** A successful call: the line matched, the fields were derived, the
    object of the attribute was updated in place and its reference
    returned. *)
Lemma _parse_log_success log self self' ev :
  _parse_log log self = (self', Return (Some ev)) →
  ∃ g fs, re_match RE_SIG_LOG log = Some g ∧ event_fields g = Return fs
          ∧ self' = after_parse fs self ∧ ev = parsed_event self.
Proof.
  rewrite _parse_log_cases.
  destruct (re_match RE_SIG_LOG log) as [g |] eqn:Hm; [| done].
  destruct (event_fields g) as [fs | e] eqn:Hfs; [| done].
  intros [= <- <-]. by exists g, fs.
Qed.

Lemma dict_update_other (d : dict) fs k :
  k ∉ fs.*1 → dict_update d fs !! k = d !! k.
Proof.
  unfold dict_update. revert d.
  induction fs as [|[k' v] fs IH]; intros d Hk; [done |].
  cbn in *. apply not_elem_of_cons in Hk as [Hne Hk].
  rewrite IH by done. by rewrite lookup_insert_ne.
Qed.

Lemma event_fields_keys g fs : event_fields g = Return fs → fs.*1 = derived_keys.
Proof.
  intros H. apply event_fields_success in H
    as (ts & secs & dt & sp & dp & _ & _ & _ & _ & _ & ->). done.
Qed.

Lemma after_parse_store fs self d :
  store self !! parsed_event self = Some d →
  store (after_parse fs self) !! parsed_event self = Some (dict_update d fs).
Proof.
  intros Hd. unfold after_parse. cbn [store].
  by rewrite lookup_alter_eq, Hd.
Qed.

(** C8. A successful parse writes the five derived keys into the event
    template; every other key of the template keeps its value, and no
    other object is touched. *)
Theorem parse_overwrites_only_derived_keys log self self' ev tmpl :
  store self !! parsed_event self = Some tmpl →
  _parse_log log self = (self', Return (Some ev)) →
  ∃ tmpl',
    store self' !! ev = Some tmpl'
    ∧ (∀ k, k ∈ derived_keys → is_Some (tmpl' !! k))
    ∧ (∀ k, k ∉ derived_keys → tmpl' !! k = tmpl !! k)
    ∧ (∀ l, l ≠ ev → store self' !! l = store self !! l).
Proof.
  intros Htmpl Hparse.
  apply _parse_log_success in Hparse as (g & fs & _ & Hfs & -> & ->).
  exists (dict_update tmpl fs). split; [by apply after_parse_store |].
  split; [| split].
  - apply event_fields_success in Hfs
      as (ts & secs & dt & sp & dp & _ & _ & _ & _ & _ & ->).
    intros k Hk. unfold derived_keys in Hk. cbn.
    repeat (apply elem_of_cons in Hk as [-> | Hk]; [by simplify_map_eq |]).
    by apply elem_of_nil in Hk.
  - intros k Hk. apply dict_update_other.
    by rewrite (event_fields_keys _ _ Hfs).
  - intros l Hl. unfold after_parse. cbn [store].
    by rewrite lookup_alter_ne.
Qed.

Lemma event_fields_line1 :
  ∃ g, re_match RE_SIG_LOG line1 = Some g
       ∧ event_fields g
         = Return [ ("alert_time", VStr (lit "2023-11-14T22:13:20"));
                    ("src_addr", VStr (lit "10.0.0.1"));
                    ("src_port", VInt 443);
                    ("dest_addr", VStr (lit "10.0.0.2"));
                    ("dest_port", VInt 51000) ].
Proof. eexists. split; [exact re_match_sample | vm_compute; reflexivity]. Qed.

(** C8 at the sample line, on a template with a protocol default. *)
Lemma parse_overwrites_only_derived_keys_witness :
  let self := sample_plugin "alert" in
  store self !! parsed_event self = Some {[ "protocol" := VStr (lit "tcp") ]}
  ∧ (_parse_log line1 self).2 = Return (Some (parsed_event self))
  ∧ ∃ tmpl',
      store (_parse_log line1 self).1 !! parsed_event self = Some tmpl'
      ∧ tmpl' !! "protocol" = Some (VStr (lit "tcp")).
Proof.
  cbv zeta.
  assert (H1 : store (sample_plugin "alert") !! parsed_event (sample_plugin "alert")
               = Some ({[ "protocol" := VStr (lit "tcp") ]} : dict))
    by reflexivity.
  assert (H2 : _parse_log line1 (sample_plugin "alert")
               = ((_parse_log line1 (sample_plugin "alert")).1,
                  Return (Some (parsed_event (sample_plugin "alert")))))
    by (vm_compute; reflexivity).
  destruct (parse_overwrites_only_derived_keys _ _ _ _ _ H1 H2)
    as (tmpl' & Hs & _ & Hframe & _).
  split; [exact H1 |]. split; [rewrite H2; reflexivity |].
  exists tmpl'. split; [exact Hs |].
  rewrite Hframe; [reflexivity |].
  unfold derived_keys. intros Hk.
  repeat (apply elem_of_cons in Hk as [Hk | Hk]; [discriminate |]).
  by apply elem_of_nil in Hk.
Defined.

(** C10. A successful call returns the reference held by the attribute
    [parsed_event], after changing that object in place; so two
    successful calls return the same object, and through the reference
    the first call returned one reads the values of the second. *)
Theorem parse_returns_the_shared_object log1 log2 self0 self1 self1' self2
    ev1 ev2 d0 d1 :
  _parse_log log1 self0 = (self1, Return (Some ev1)) →
  _parse_log log2 self1' = (self2, Return (Some ev2)) →
  parsed_event self1' = parsed_event self1 →
  store self0 !! parsed_event self0 = Some d0 →
  store self1' !! parsed_event self1' = Some d1 →
  ev1 = parsed_event self0 ∧ ev2 = ev1
  ∧ ∃ g1 fs1 g2 fs2,
      re_match RE_SIG_LOG log1 = Some g1 ∧ event_fields g1 = Return fs1
      ∧ re_match RE_SIG_LOG log2 = Some g2 ∧ event_fields g2 = Return fs2
      ∧ store self1 !! ev1 = Some (dict_update d0 fs1)
      ∧ store self2 !! ev1 = Some (dict_update d1 fs2)
      ∧ ∀ k v, (k, v) ∈ fs2 → store self2 !! ev1 ≫= (.!! k) = Some v.
Proof.
  intros H1 H2 Hattr Hd0 Hd1.
  apply _parse_log_success in H1 as (g1 & fs1 & Hg1 & Hfs1 & -> & ->).
  apply _parse_log_success in H2 as (g2 & fs2 & Hg2 & Hfs2 & -> & ->).
  split; [done |]. split; [done |].
  exists g1, fs1, g2, fs2. repeat split; try done.
  - by apply after_parse_store.
  - change (parsed_event self0) with (parsed_event (after_parse fs1 self0)).
    rewrite <- Hattr. by apply after_parse_store.
  - intros k v Hkv.
    change (parsed_event self0) with (parsed_event (after_parse fs1 self0)).
    rewrite <- Hattr. rewrite (after_parse_store _ _ _ Hd1). cbn.
    apply event_fields_success in Hfs2
      as (ts & secs & dt & sp & dp & _ & _ & _ & _ & _ & ->).
    repeat (apply elem_of_cons in Hkv as [[= -> ->] | Hkv];
            [by simplify_map_eq |]).
    by apply elem_of_nil in Hkv.
Qed.

Lemma run_body_cases l self :
  run_body l self =
  match re_match RE_SIG_LOG l with
  | None => (self, Raise AttributeError)
  | Some g =>
      match event_fields g with
      | Raise e => ((log_ DEBUG "data parsed from log: %s" self).1, Raise e)
      | Return fs => (published fs self, Return ())
      end
  end.
Proof.
  unfold run_body. unfold mbind at 1, py_bind at 1.
  rewrite _parse_log_cases.
  destruct (re_match RE_SIG_LOG l) as [g |]; [| done].
  destruct (event_fields g) as [fs | e]; [| done].
  cbv [mbind py_bind log_ queue_put published].
  cbn [config interval parsed_event store logger queue after_parse].
  by rewrite <- !app_assoc.
Qed.

(** The attribute is never rebound, and whatever the loop puts on the
    queue is the reference it holds. *)
Lemma consume_shares_one_event evs self :
  parsed_event (consume evs self).1 = parsed_event self
  ∧ ∀ ev, ev ∈ queue (consume evs self).1 →
          ev ∈ queue self ∨ ev = parsed_event self.
Proof.
  revert self. induction evs as [|ev evs IH]; intros self.
  - cbn. eauto.
  - destruct ev as [r | l | n]; cbn [consume].
    + exact (IH (log_ (lvl r) (msg r) self).1).
    + unfold mbind, py_bind. rewrite run_body_cases.
      destruct (re_match RE_SIG_LOG l) as [g |]; [| cbn; eauto].
      destruct (event_fields g) as [fs | e]; [| cbn; eauto].
      destruct (IH (published fs self)) as [IH1 IH2].
      cbn [parsed_event queue published] in IH1, IH2.
      split; [exact IH1 |].
      intros ev Hev. apply IH2 in Hev as [Hev | Hev]; [| by right].
      apply elem_of_app in Hev as [Hev | Hev]; [by left |].
      apply list_elem_of_singleton in Hev. by right.
    + apply IH.
Qed.

(** C10 at two sample lines: the reference returned for the first line
    shows the source port of the second. *)
Lemma parse_returns_the_shared_object_witness :
  let self0 := sample_plugin "alert" in
  let self1 := (_parse_log line1 self0).1 in
  let self2 := (_parse_log line3 self1).1 in
  (_parse_log line1 self0).2 = Return (Some 1%positive)
  ∧ (_parse_log line3 self1).2 = Return (Some 1%positive)
  ∧ store self1 !! 1%positive ≫= (.!! "src_port") = Some (VInt 443)
  ∧ store self2 !! 1%positive ≫= (.!! "src_port") = Some (VInt 80).
Proof.
  cbv zeta.
  set (self0 := sample_plugin "alert").
  set (self1 := (_parse_log line1 self0).1).
  set (self2 := (_parse_log line3 self1).1).
  assert (H1 : _parse_log line1 self0 = (self1, Return (Some 1%positive)))
    by (vm_compute; reflexivity).
  assert (H2 : _parse_log line3 self1 = (self2, Return (Some 1%positive)))
    by (vm_compute; reflexivity).
  assert (Hd0 : store self0 !! parsed_event self0
                = Some ({[ "protocol" := VStr (lit "tcp") ]} : dict))
    by reflexivity.
  assert (Hd1 : ∃ d1, store self1 !! parsed_event self1 = Some d1).
  { destruct (_parse_log_success _ _ _ _ H1) as (g & fs & _ & _ & E & _).
    eexists. rewrite E. exact (after_parse_store fs self0 _ Hd0). }
  destruct Hd1 as [d1 Hd1].
  destruct (parse_returns_the_shared_object _ _ _ _ _ _ _ _ _ _
              H1 H2 eq_refl Hd0 Hd1) as (Hev1 & Hev2 & _).
  split; [rewrite H1; reflexivity |]. split; [rewrite H2; reflexivity |].
  split; vm_compute; reflexivity.
Defined.

(** C5. The file gains the two sample lines; the first holds the
    signature and the second does not. The pass hands over exactly the
    first line, and parsing it gives the event of the scenario, written
    over the template. *)
Theorem concrete_scenario sig ival old self tmpl :
  contains sig (line1 ++ [newline]) = true →
  contains sig (line2 ++ [newline]) = false →
  store self !! parsed_event self = Some tmpl →
  let disk := old ++ line1 ++ [newline] ++ line2 ++ [newline] in
  yields (tail_cycle sig ival disk (length old)).2 = [line1]
  ∧ ∃ self' ev event,
      _parse_log line1 self = (self', Return (Some ev))
      ∧ store self' !! ev = Some event
      ∧ event !! "alert_time" = Some (VStr (lit "2023-11-14T22:13:20"))
      ∧ event !! "src_addr" = Some (VStr (lit "10.0.0.1"))
      ∧ event !! "src_port" = Some (VInt 443)
      ∧ event !! "dest_addr" = Some (VStr (lit "10.0.0.2"))
      ∧ event !! "dest_port" = Some (VInt 51000).
Proof.
  intros Hsig1 Hsig2 Htmpl disk. split.
  - unfold disk. rewrite tail_cycle_within by (rewrite length_app; lia).
    rewrite drop_app_length. cbn [snd].
    assert (Hlines : splitlines [] (line1 ++ [newline] ++ line2 ++ [newline])
                     = [line1 ++ [newline]; line2 ++ [newline]])
      by (vm_compute; reflexivity).
    rewrite Hlines. cbn [pass_events prefilter]. rewrite Hsig1, Hsig2.
    assert (Hstrip : strip (line1 ++ [newline]) = line1)
      by (vm_compute; reflexivity).
    rewrite Hstrip. reflexivity.
  - destruct event_fields_line1 as (g & Hg & Hfs).
    eexists _, _, _. rewrite _parse_log_cases, Hg, Hfs.
    split; [reflexivity |].
    split; [by apply after_parse_store |].
    cbn. by simplify_map_eq.
Qed.

Lemma concrete_scenario_witness :
  let self := sample_plugin "alert" in
  let disk := line1 ++ [newline] ++ line2 ++ [newline] in
  contains (lit "alert") (line1 ++ [newline]) = true
  ∧ contains (lit "alert") (line2 ++ [newline]) = false
  ∧ yields (tail_cycle (lit "alert") 3 disk 0).2 = [line1]
  ∧ (_parse_log line1 self).2 = Return (Some 1%positive).
Proof.
  cbv zeta.
  assert (H1 : contains (lit "alert") (line1 ++ [newline]) = true)
    by (vm_compute; reflexivity).
  assert (H2 : contains (lit "alert") (line2 ++ [newline]) = false)
    by (vm_compute; reflexivity).
  assert (H3 : store (sample_plugin "alert") !! parsed_event (sample_plugin "alert")
               = Some ({[ "protocol" := VStr (lit "tcp") ]} : dict))
    by reflexivity.
  destruct (concrete_scenario (lit "alert") 3 [] _ _ H1 H2 H3)
    as (Hy & self' & ev & event & Hp & _).
  split; [exact H1 |]. split; [exact H2 |]. split; [exact Hy |].
  vm_compute. reflexivity.
Defined.

(** ** Timestamps in ISO 8601 form *)

Example iso_recognised : is_iso8601_seconds (lit "2023-11-14T22:13:20") = true.
Proof. vm_compute. reflexivity. Qed.

Example iso_refuses_fraction :
  is_iso8601_seconds (lit "2023-11-14T22:13:20.500000") = false.
Proof. vm_compute. reflexivity. Qed.

Example iso_refuses_bad_day : is_iso8601_seconds (lit "2023-02-29T22:13:20") = false.
Proof. vm_compute. reflexivity. Qed.

Lemma all_from_spec f n i :
  all_from f n i = true → ∀ j, i ≤ j < i + Z.of_nat n → f j = true.
Proof.
  revert i. induction n as [|n IH]; intros i H j Hj; [lia |].
  cbn [all_from] in H. apply andb_true_iff in H as [Hi H].
  destruct (decide (j = i)) as [-> | Hne]; [done |].
  apply (IH (i + 1)); [done | lia].
Qed.

Lemma civil_from_days_era days :
  civil_from_days days
  = let '(y, m, d) := civil_of_doe ((days + 719468) mod 146097) in
    (y + (days + 719468) / 146097 * 400, m, d).
Proof.
  unfold civil_from_days, civil_of_doe. cbv zeta. f_equal. f_equal.
  destruct (_ <=? 2); lia.
Qed.

Lemma civil_of_doe_checks doe :
  0 ≤ doe < 146097 → doe_checks doe = true.
Proof.
  intros Hdoe.
  assert (H : all_from doe_checks (Z.to_nat 146097) 0 = true)
    by (vm_compute; reflexivity).
  apply (all_from_spec _ _ _ H). lia.
Qed.

Lemma civil_of_doe_valid doe :
  0 ≤ doe < 146097 → valid_date (civil_of_doe doe) = true.
Proof.
  intros Hdoe. pose proof (civil_of_doe_checks doe Hdoe) as H.
  unfold doe_checks in H. cbv zeta in H.
  apply andb_true_iff in H as [H _]. by apply andb_true_iff in H as [H _].
Qed.

Lemma civil_of_doe_year doe :
  0 ≤ doe < 146097 → 0 ≤ (civil_of_doe doe).1.1 ≤ 400.
Proof.
  intros Hdoe. pose proof (civil_of_doe_checks doe Hdoe) as H.
  unfold doe_checks in H. cbv zeta in H.
  apply andb_true_iff in H as [H H2]. apply andb_true_iff in H as [_ H1].
  apply Z.leb_le in H1, H2. lia.
Qed.

Lemma is_leap_era y e : is_leap (y + e * 400) = is_leap y.
Proof.
  unfold is_leap.
  replace ((y + e * 400) mod 4) with (y mod 4)
    by (replace (e * 400) with (e * 100 * 4) by lia; by rewrite Z.mod_add).
  replace ((y + e * 400) mod 100) with (y mod 100)
    by (replace (e * 400) with (e * 4 * 100) by lia; by rewrite Z.mod_add).
  by rewrite Z.mod_add.
Qed.

Lemma civil_from_days_valid days : valid_date (civil_from_days days) = true.
Proof.
  rewrite civil_from_days_era.
  pose proof (civil_of_doe_valid ((days + 719468) mod 146097)) as H.
  destruct (civil_of_doe ((days + 719468) mod 146097)) as [[y m] d].
  unfold valid_date in *. unfold days_in_month in *.
  rewrite is_leap_era. apply H. apply Z.mod_pos_bound. lia.
Qed.

Lemma gmtime_valid t :
  let '(y, mo, d, hh, mm, ss) := gmtime t in
  valid_fields y mo d hh mm (Z.min ss 59) = true.
Proof.
  unfold gmtime. pose proof (civil_from_days_valid (t / 86400)) as H.
  destruct (civil_from_days (t / 86400)) as [[y m] d].
  unfold valid_date in H. unfold valid_fields. rewrite H. cbn [andb].
  pose proof (Z.mod_pos_bound t 86400 ltac:(lia)) as Hrem.
  set (r := t mod 86400) in *. clearbody r.
  assert (0 ≤ r / 3600 ≤ 23) by (Z.div_mod_to_equations; lia).
  assert (0 ≤ r mod 3600 / 60 ≤ 59) by (Z.div_mod_to_equations; lia).
  assert (0 ≤ r mod 60 ≤ 59) by (Z.div_mod_to_equations; lia).
  repeat (apply andb_true_intro; split); apply Z.leb_le; lia.
Qed.

Lemma fmt2_checks n : 0 ≤ n < 100 → fmt_checks 2 n = true.
Proof.
  intros Hn.
  assert (H : all_from (fmt_checks 2) 100 0 = true) by (vm_compute; reflexivity).
  apply (all_from_spec _ _ _ H). lia.
Qed.

Lemma fmt4_checks n : 0 ≤ n < 10000 → fmt_checks 4 n = true.
Proof.
  intros Hn.
  assert (H : all_from (fmt_checks 4) (Z.to_nat 10000) 0 = true)
    by (vm_compute; reflexivity).
  apply (all_from_spec _ _ _ H). lia.
Qed.

Lemma fmt2_digits n :
  0 ≤ n < 100 →
  ∃ a b, fmt_0d 2 n = [a; b] ∧ isdigit a = true ∧ isdigit b = true
         ∧ int_of_digits [a; b] = n.
Proof.
  intros Hn. pose proof (fmt2_checks n Hn) as H. unfold fmt_checks in H.
  cbv zeta in H. apply andb_true_iff in H as [H Hv].
  apply andb_true_iff in H as [Hl Hd]. apply Nat.eqb_eq in Hl.
  apply Z.eqb_eq in Hv.
  destruct (fmt_0d 2 n) as [|a [|b [|c s]]]; try discriminate.
  cbn [forallb] in Hd. rewrite andb_true_r in Hd.
  apply andb_true_iff in Hd as [Ha Hb]. by exists a, b.
Qed.

Lemma fmt4_digits n :
  0 ≤ n < 10000 →
  ∃ a b c d, fmt_0d 4 n = [a; b; c; d]
             ∧ forallb isdigit [a; b; c; d] = true
             ∧ int_of_digits [a; b; c; d] = n.
Proof.
  intros Hn. pose proof (fmt4_checks n Hn) as H. unfold fmt_checks in H.
  cbv zeta in H. apply andb_true_iff in H as [H Hv].
  apply andb_true_iff in H as [Hl Hd]. apply Nat.eqb_eq in Hl.
  apply Z.eqb_eq in Hv.
  destruct (fmt_0d 4 n) as [|a [|b [|c [|d [|e s]]]]]; try discriminate.
  by exists a, b, c, d.
Qed.

Lemma days_in_month_le y m : days_in_month y m ≤ 31.
Proof.
  unfold days_in_month.
  repeat match goal with |- context [if ?b then _ else _] => destruct b end; lia.
Qed.

(** A date and time with its fields in range prints in ISO 8601 form to
    the second. *)
Lemma isoformat_recognised dt :
  0 ≤ year dt ≤ 9999 →
  valid_fields (year dt) (month dt) (day dt)
    (hour dt) (minute dt) (second dt) = true →
  is_iso8601_seconds (isoformat_seconds dt) = true.
Proof.
  intros Hy Hv. pose proof Hv as Hv'. unfold valid_fields in Hv'.
  repeat (apply andb_true_iff in Hv' as [Hv' ?]).
  repeat match goal with H : (_ <=? _) = true |- _ => apply Z.leb_le in H end.
  pose proof (days_in_month_le (year dt) (month dt)).
  destruct (fmt4_digits (year dt)) as (y1 & y2 & y3 & y4 & Ey & Dy & Vy); [lia |].
  destruct (fmt2_digits (month dt)) as (m1 & m2 & Em & Dm1 & Dm2 & Vm); [lia |].
  destruct (fmt2_digits (day dt)) as (d1 & d2 & Ed & Dd1 & Dd2 & Vd); [lia |].
  destruct (fmt2_digits (hour dt)) as (h1 & h2 & Eh & Dh1 & Dh2 & Vh); [lia |].
  destruct (fmt2_digits (minute dt)) as (i1 & i2 & Ei & Di1 & Di2 & Vi); [lia |].
  destruct (fmt2_digits (second dt)) as (s1 & s2 & Es & Ds1 & Ds2 & Vs); [lia |].
  unfold isoformat_seconds. rewrite Ey, Em, Ed, Eh, Ei, Es.
  cbn [app lit list_ascii_of_string].
  unfold is_iso8601_seconds. rewrite Vy, Vm, Vd, Vh, Vi, Vs, Hv.
  cbn [forallb] in Dy |- *.
  repeat (apply andb_true_iff in Dy as [? Dy]).
  repeat match goal with H : isdigit _ = true |- _ => rewrite H; clear H end.
  reflexivity.
Qed.

Lemma utcfromtimestamp_valid secs dt :
  utcfromtimestamp secs = Return dt →
  1 ≤ year dt ≤ 9999
  ∧ valid_fields (year dt) (month dt) (day dt)
      (hour dt) (minute dt) (second dt) = true.
Proof.
  unfold utcfromtimestamp.
  destruct (seconds_and_micros secs) as [[t us] | e]; [| done].
  pose proof (gmtime_valid t) as Hv.
  destruct (gmtime t) as [[[[[y mo] d] hh] mm] ss].
  destruct ((MINYEAR <=? y) && (y <=? MAXYEAR)) eqn:Hy; [| done].
  intros [= <-]. cbn [year month day hour minute second].
  apply andb_true_iff in Hy as [Hy1 Hy2].
  apply Z.leb_le in Hy1, Hy2. unfold MINYEAR, MAXYEAR in *. done.
Qed.

Lemma py_int_digits s n :
  py_int (VStr s) = Return n →
  all_digits s = true ∧ n = int_of_digits s.
Proof.
  unfold py_int. destruct (all_digits s); [| done]. by intros [= <-].
Qed.

Lemma digits_value_bound s :
  all_digits s = true → (length s ≤ 5)%nat → 0 ≤ int_of_digits s ≤ 99999.
Proof.
  intros Hs Hl. apply all_digits_forallb, int_of_digits_bound in Hs.
  assert (10 ^ Z.of_nat (length s) ≤ 10 ^ 5)
    by (apply Z.pow_le_mono_r; lia).
  lia.
Qed.

(** C2, as stated, fails: the pattern takes any one to five digits as a
    port, and nothing after it checks the range. *)
Lemma ports_outside_1_65535 :
  let self := sample_plugin "alert" in
  let self' := (_parse_log line0 self).1 in
  (re_match RE_SIG_LOG line0 ≫= (.!! "src_port")) = Some (lit "0")
  ∧ (re_match RE_SIG_LOG line0 ≫= (.!! "dst_port")) = Some (lit "99999")
  ∧ (_parse_log line0 self).2 = Return (Some 1%positive)
  ∧ store self' !! 1%positive ≫= (.!! "src_port") = Some (VInt 0)
  ∧ store self' !! 1%positive ≫= (.!! "dest_port") = Some (VInt 99999)
  ∧ ¬ (1 ≤ 0 ≤ 65535) ∧ ¬ (1 ≤ 99999 ≤ 65535).
Proof.
  cbv zeta. repeat split; try (vm_compute; reflexivity); lia.
Qed.

(** C2, amended. The event of a successful parse has integer ports, each
    the value of one to five digits and so from 0 to 99999, and an
    [alert_time] in ISO 8601 form to the second. *)
Theorem parsed_event_ports_and_time log self self' ev tmpl :
  store self !! parsed_event self = Some tmpl →
  _parse_log log self = (self', Return (Some ev)) →
  ∃ event sp dp alert_time,
    store self' !! ev = Some event
    ∧ event !! "src_port" = Some (VInt sp) ∧ 0 ≤ sp ≤ 99999
    ∧ event !! "dest_port" = Some (VInt dp) ∧ 0 ≤ dp ≤ 99999
    ∧ event !! "alert_time" = Some (VStr alert_time)
    ∧ is_iso8601_seconds alert_time = true.
Proof.
  intros Htmpl Hparse.
  apply _parse_log_success in Hparse as (g & fs & Hg & Hfs & -> & ->).
  apply RE_SIG_LOG_groups in Hg
    as (ip & fp & sa & tsp & da & tdp & Eg & _ & _ & Hsp & Lsp & Hdp & Ldp & _).
  apply event_fields_success in Hfs
    as (ts & secs & dt & sp & dp & _ & _ & Hdt & Esp & Edp & Efs).
  assert (Gsp : dict_get g "src_port" = VStr tsp).
  { unfold dict_get. rewrite Eg.
    by rewrite lookup_insert_ne, lookup_insert_ne, lookup_insert_eq. }
  assert (Gdp : dict_get g "dst_port" = VStr tdp).
  { unfold dict_get. rewrite Eg. by rewrite lookup_insert_eq. }
  rewrite Gsp in Esp. rewrite Gdp in Edp.
  apply py_int_digits in Esp as [_ ->]. apply py_int_digits in Edp as [_ ->].
  apply utcfromtimestamp_valid in Hdt as [Hy Hv].
  exists (dict_update tmpl fs), (int_of_digits tsp), (int_of_digits tdp),
    (isoformat_seconds dt).
  split; [by apply after_parse_store |].
  rewrite Efs. cbn [dict_update foldl fst snd].
  split; [by simplify_map_eq |]. split; [by apply digits_value_bound |].
  split; [by simplify_map_eq |]. split; [by apply digits_value_bound |].
  split; [by simplify_map_eq |].
  apply isoformat_recognised; [lia | done].
Qed.

Lemma parsed_event_ports_and_time_witness :
  let self := sample_plugin "alert" in
  let self' := (_parse_log line0 self).1 in
  store self !! parsed_event self = Some {[ "protocol" := VStr (lit "tcp") ]}
  ∧ (_parse_log line0 self).2 = Return (Some 1%positive)
  ∧ ∃ event sp alert_time,
      store self' !! 1%positive = Some event
      ∧ event !! "src_port" = Some (VInt sp) ∧ 0 ≤ sp ≤ 99999
      ∧ event !! "alert_time" = Some (VStr alert_time)
      ∧ is_iso8601_seconds alert_time = true.
Proof.
  cbv zeta.
  assert (H1 : store (sample_plugin "alert") !! parsed_event (sample_plugin "alert")
               = Some ({[ "protocol" := VStr (lit "tcp") ]} : dict))
    by reflexivity.
  assert (H2 : _parse_log line0 (sample_plugin "alert")
               = ((_parse_log line0 (sample_plugin "alert")).1,
                  Return (Some 1%positive)))
    by (vm_compute; reflexivity).
  destruct (parsed_event_ports_and_time _ _ _ _ _ H1 H2)
    as (event & sp & dp & alert_time & Hs & Hsp & Bsp & _ & _ & Hat & Hiso).
  split; [exact H1 |]. split; [rewrite H2; reflexivity |].
  exists event, sp, alert_time. repeat split; try assumption; apply Bsp.
Defined.

(** ** Rounding to binary64 and to microseconds *)

Lemma pow2_nonneg e : 0 ≤ e → pow2 e = 2 ^ e.
Proof. intros He. unfold pow2. by rewrite Z.max_l. Qed.

Lemma pow2_nonpos e : e ≤ 0 → pow2 e = 1.
Proof. intros He. unfold pow2. by rewrite Z.max_r. Qed.

Lemma pow2_pos e : 0 < pow2 e.
Proof. unfold pow2. apply Z.pow_pos_nonneg; lia. Qed.

(** The nearest integer is within half a unit. *)
Lemma round_half_even_bounds a b :
  0 < b →
  2 * a - b ≤ 2 * (round_half_even a b * b) ≤ 2 * a + b.
Proof.
  intros Hb. unfold round_half_even.
  pose proof (Z.div_mod a b ltac:(lia)) as Hdm.
  pose proof (Z.mod_pos_bound a b Hb) as Hr.
  set (d := a / b) in *. set (r := a mod b) in *. clearbody d r.
  destruct (Z.ltb_spec (2 * r) b); [nia |].
  destruct (Z.ltb_spec b (2 * r)); [nia |].
  destruct (Z.even d); nia.
Qed.

Lemma round_half_even_nonneg a b : 0 ≤ a → 0 < b → 0 ≤ round_half_even a b.
Proof.
  intros Ha Hb. unfold round_half_even.
  assert (0 ≤ a / b) by (apply Z.div_pos; lia).
  repeat match goal with |- context [if ?c then _ else _] => destruct c end; lia.
Qed.

Lemma round_half_even_le a b n :
  0 < b → 2 * a < (2 * n + 1) * b → round_half_even a b ≤ n.
Proof.
  intros Hb Ha. pose proof (round_half_even_bounds a b Hb) as [_ H].
  nia.
Qed.

Lemma round_half_even_zero b : 0 < b → round_half_even 0 b = 0.
Proof.
  intros Hb. unfold round_half_even.
  rewrite Z.div_0_l, Z.mod_0_l by lia.
  destruct (Z.ltb_spec (2 * 0) b); [done | lia].
Qed.

(** Bounds on the binade. *)
Lemma ilog2_lt p q B :
  0 < p → 0 < q → 0 ≤ B → p < q * 2 ^ B → ilog2 p q < B.
Proof.
  intros Hp Hq HB Hlt. unfold ilog2.
  assert (Hk : Z.log2 p - Z.log2 q ≤ B).
  { assert (Z.log2 p ≤ Z.log2 (q * 2 ^ B)) by (apply Z.log2_le_mono; lia).
    rewrite Z.log2_mul_pow2 in * by lia. lia. }
  set (k := Z.log2 p - Z.log2 q) in *. clearbody k.
  destruct (Z.ltb_spec (p * pow2 (- k)) (q * pow2 k)) as [_ | Hge]; [lia |].
  destruct (decide (k = B)) as [-> | Hne]; [| lia].
  rewrite (pow2_nonpos (- B)), (pow2_nonneg B) in Hge by lia. lia.
Qed.

Lemma ilog2_ge p q c :
  0 < p → 0 < q → 0 ≤ c → q < 2 ^ c → - c ≤ ilog2 p q.
Proof.
  intros Hp Hq Hc Hlt. unfold ilog2.
  assert (0 ≤ Z.log2 p) by apply Z.log2_nonneg.
  assert (Z.log2 q < c) by (apply Z.log2_lt_pow2; lia).
  destruct (_ <? _); lia.
Qed.

(** Rounding a number below [2^B] whose denominator is below [2^c]:
    the exponent is [-g] for a [g] within the bounds, and the mantissa
    is the nearest integer to the number scaled by [2^g]. *)
Lemma round64_small p q B c :
  0 < p → 0 < q → 0 ≤ B ≤ 53 → 0 ≤ c ≤ 400 →
  p < q * 2 ^ B → q < 2 ^ c →
  ∃ g, 53 - B ≤ g ≤ c + 52
       ∧ round64 p q = Finite (round_half_even (p * 2 ^ g) q) (- g).
Proof.
  intros Hp Hq HB Hc Hlt Hqc. unfold round64.
  destruct (Z.eqb_spec p 0) as [| _]; [lia |].
  pose proof (ilog2_lt p q B Hp Hq ltac:(lia) Hlt) as Hk1.
  pose proof (ilog2_ge p q c Hp Hq ltac:(lia) Hqc) as Hk2.
  set (k := ilog2 p q) in *. clearbody k.
  rewrite Z.max_l by lia.
  exists (52 - k). split; [lia |].
  replace (k - 52) with (- (52 - k)) by lia.
  set (g := 52 - k) in *. assert (Hg : 0 ≤ g ≤ c + 52) by lia. clearbody g.
  rewrite Z.opp_involutive, (pow2_nonneg g), (pow2_nonpos (- g)) by lia.
  rewrite !Z.mul_1_r.
  set (m := round_half_even (p * 2 ^ g) q).
  destruct (Z.leb_spec (pow2 1024) m) as [Hover |]; [| done].
  exfalso.
  (* the mantissa is far below 2^1024 *)
  pose proof (round_half_even_bounds (p * 2 ^ g) q Hq) as [_ Hm].
  fold m in Hm.
  assert (H2g : 0 < 2 ^ g) by (apply Z.pow_pos_nonneg; lia).
  assert (Hpb : p < 2 ^ 453).
  { assert (2 ^ B ≤ 2 ^ 53) by (apply Z.pow_le_mono_r; lia).
    assert (2 ^ c ≤ 2 ^ 400) by (apply Z.pow_le_mono_r; lia).
    assert (0 < 2 ^ B) by (apply Z.pow_pos_nonneg; lia).
    replace (2 ^ 453) with (2 ^ 400 * 2 ^ 53) by (rewrite <- Z.pow_add_r; done).
    nia. }
  assert (Hgb : 2 ^ g ≤ 2 ^ 452) by (apply Z.pow_le_mono_r; lia).
  assert (Hmb : m ≤ 2 ^ 906).
  { replace (2 ^ 906) with (2 * (2 ^ 453 * 2 ^ 452))
      by (rewrite <- Z.pow_add_r by lia; rewrite <- Z.pow_succ_r by lia; done).
    assert (m * q ≤ p * 2 ^ g + q) by lia.
    assert (p * 2 ^ g ≤ 2 ^ 453 * 2 ^ 452) by nia.
    assert (0 < 2 ^ 453 * 2 ^ 452) by nia.
    nia. }
  assert (2 ^ 906 < pow2 1024)
    by (rewrite pow2_nonneg by lia; apply Z.pow_lt_mono_r; lia).
  lia.
Qed.

(** A timestamp of [n] seconds and [F / q] of a second, for a
    denominator [q] up to a million and [n] below [2^33]: rounding to
    binary64 and then to microseconds leaves the whole seconds at [n]. *)
Lemma seconds_of_short_fraction n F q :
  0 ≤ n < 2 ^ 33 → 0 < q ≤ 10 ^ 6 → 0 ≤ F < q →
  ∃ us, seconds_and_micros (round64 (n * q + F) q) = Return (n, us)
        ∧ 0 ≤ us < 10 ^ 6.
Proof.
  intros Hn Hq HF.
  destruct (decide (n * q + F = 0)) as [Hz | Hp].
  { assert (n = 0) by nia. subst n. rewrite Hz.
    exists 0. split; [| lia]. vm_compute. reflexivity. }
  assert (Hp0 : 0 < n * q + F) by nia.
  set (p := n * q + F) in *.
  assert (Hq20 : q < 2 ^ 20) by (change (2 ^ 20) with 1048576; lia).
  destruct (round64_small p q 33 20) as (g & Hg & ->); try lia.
  { unfold p. nia. }
  unfold seconds_and_micros.
  rewrite Z.opp_involutive, (pow2_nonneg g), (pow2_nonpos (- g)) by lia.
  rewrite Z.mul_1_r.
  set (G := 2 ^ g).
  assert (HG : 2 ^ 20 ≤ G) by (apply Z.pow_le_mono_r; lia).
  change (2 ^ 20) with 1048576 in HG, Hq20.
  change (10 ^ 6) with 1000000 in *.
  pose proof (round_half_even_bounds (p * G) q ltac:(lia)) as [Hm1 Hm2].
  set (m := round_half_even (p * G) q) in *. clearbody m.
  (* the whole seconds of the binary64 number are [n] *)
  assert (HFG : 0 ≤ F * G ≤ (q - 1) * G) by nia.
  assert (Hpg : p * G = n * G * q + F * G) by (unfold p; lia).
  assert (Hlo : n * G ≤ m) by nia.
  assert (Hhi : m < n * G + G) by nia.
  assert (Hdiv : m / G = n).
  { symmetry. apply (Z.div_unique m G n (m - n * G)); lia. }
  assert (Hmod : m mod G = m - n * G).
  { symmetry. apply (Z.mod_unique m G n (m - n * G)); lia. }
  rewrite Hdiv, Hmod.
  set (f := m - n * G) in *.
  assert (Hf : 0 ≤ f) by (unfold f; lia).
  assert (Hfq : 2 * (f * q) ≤ 2 * ((q - 1) * G) + q) by (unfold f; nia).
  destruct (decide (f = 0)) as [Hf0 | Hf0].
  { exists 0. split; [| lia]. rewrite Hf0.
    change (round64 (0 * 1000000) G) with (Finite 0 0). cbv beta iota.
    rewrite Z.mul_0_l, round_half_even_zero by apply pow2_pos. done. }
  (* the microseconds stay below a million *)
  destruct (round64_small (f * 1000000) G 20 (g + 1)) as (g' & Hg' & ->);
    try lia.
  { unfold G. apply Z.pow_lt_mono_r; lia. }
  rewrite Z.opp_involutive, (pow2_nonneg g'), (pow2_nonpos (- g')) by lia.
  rewrite Z.mul_1_r.
  set (G' := 2 ^ g').
  assert (HG' : 2 ^ 33 ≤ G') by (apply Z.pow_le_mono_r; lia).
  change (2 ^ 33) with 8589934592 in HG'.
  pose proof (round_half_even_bounds (f * 1000000 * G') G ltac:(lia))
    as [_ Hm'].
  assert (Hm0 : 0 ≤ round_half_even (f * 1000000 * G') G)
    by (apply round_half_even_nonneg; nia).
  set (m' := round_half_even (f * 1000000 * G') G) in *. clearbody m'.
  assert (Hus0 : 0 ≤ round_half_even m' G')
    by (apply round_half_even_nonneg; lia).
  assert (Hus1 : round_half_even m' G' ≤ 999999).
  { apply round_half_even_le; [lia |].
    (* 2 m' < 1999999 G', shown after scaling by G q *)
    assert (HX : 0 < G' * G) by (apply Z.mul_pos_pos; lia).
    assert (HY : 0 < G * q) by (apply Z.mul_pos_pos; lia).
    pose proof (Z.mul_le_mono_nonneg_r _ _ q ltac:(lia) Hm') as H1.
    assert (H2 : 1000000 * G' * (2 * (f * q))
                 ≤ 1000000 * G' * (2 * ((q - 1) * G) + q)).
    { apply Z.mul_le_mono_nonneg_l; [lia | exact Hfq]. }
    assert (H3 : 1000000 * (G' * q) ≤ 953675 * (G' * G)).
    { assert (G' * q ≤ G' * 1000000) by (apply Z.mul_le_mono_nonneg_l; lia).
      assert (G' * 1048576 ≤ G' * G) by (apply Z.mul_le_mono_nonneg_l; lia).
      lia. }
    assert (H4 : G * q ≤ G * G') by (apply Z.mul_le_mono_nonneg_l; lia).
    assert (H5 : (G' * G) * q ≤ (G' * G) * 1000000)
      by (apply Z.mul_le_mono_nonneg_l; lia).
    apply Z.mul_lt_mono_pos_r with (p := G * q); [done |]. lia. }
  set (us := round_half_even m' G') in *. clearbody us.
  exists us. split; [| lia].
  destruct (Z.leb_spec 1000000 us); [lia |].
  destruct (Z.ltb_spec us 0); [lia |]. done.
Qed.

(** ** The second of [alert_time] *)

Lemma split_point_digits ip fp :
  forallb isdigit ip = true →
  split_point (ip ++ "."%char :: fp) = (ip, Some fp).
Proof.
  induction ip as [|c ip IH]; intros Hd; [done |].
  cbn [forallb] in Hd. apply andb_true_iff in Hd as [Hc Hd].
  cbn [app split_point]. rewrite (IH Hd).
  destruct (bool_decide_reflect (c = "."%char)) as [-> | _]; [done | done].
Qed.

Lemma py_float_decimal ip fp :
  all_digits ip = true → all_digits fp = true →
  py_float (ip ++ "."%char :: fp)
  = Return (round64 (int_of_digits ip * 10 ^ Z.of_nat (length fp)
                     + int_of_digits fp)
                    (10 ^ Z.of_nat (length fp))).
Proof.
  intros Hip Hfp. unfold py_float.
  rewrite split_point_digits by by apply all_digits_forallb.
  by rewrite Hip, Hfp, int_of_digits_app.
Qed.

(** Until the year 2242 the calendar year is one [datetime] holds. *)
Lemma gmtime_year_range n :
  0 ≤ n < 2 ^ 33 →
  let '(y, mo, d, hh, mm, ss) := gmtime n in
  (MINYEAR <=? y) && (y <=? MAXYEAR) = true.
Proof.
  intros Hn. unfold gmtime. rewrite civil_from_days_era.
  change (2 ^ 33) with 8589934592 in Hn.
  assert (Hdays : 0 ≤ n / 86400 ≤ 99420) by (Z.div_mod_to_equations; lia).
  set (days := n / 86400) in *. clearbody days.
  assert (Hera : 4 ≤ (days + 719468) / 146097 ≤ 5)
    by (Z.div_mod_to_equations; lia).
  pose proof (civil_of_doe_year ((days + 719468) mod 146097)
                ltac:(apply Z.mod_pos_bound; lia)) as Hy.
  destruct (civil_of_doe ((days + 719468) mod 146097)) as [[y m] d].
  cbn [fst] in Hy. unfold MINYEAR, MAXYEAR.
  apply andb_true_intro. split; apply Z.leb_le; lia.
Qed.

Lemma isoformat_seconds_drops_micros y mo d hh mm ss us :
  isoformat_seconds (DateTime y mo d hh mm ss us)
  = isoformat_seconds (DateTime y mo d hh mm ss 0).
Proof. reflexivity. Qed.

(** The instant [utcfromtimestamp] makes of whole seconds [n] before the
    year 2242 prints as [iso_of_epoch n], whatever the microseconds. *)
Lemma utcfromtimestamp_of_seconds secs n us :
  seconds_and_micros secs = Return (n, us) → 0 ≤ n < 2 ^ 33 →
  ∃ dt, utcfromtimestamp secs = Return dt
        ∧ isoformat_seconds dt = iso_of_epoch n.
Proof.
  intros Hs Hn. unfold utcfromtimestamp, iso_of_epoch. rewrite Hs.
  pose proof (gmtime_year_range n Hn) as Hy.
  destruct (gmtime n) as [[[[[y mo] d] hh] mm] ss]. rewrite Hy.
  eexists. split; [reflexivity |]. apply isoformat_seconds_drops_micros.
Qed.

(** C4, as stated, fails: the timestamp is first rounded to binary64,
    and a fraction of seven nines is then no longer below the next
    second. *)
Lemma alert_time_not_always_truncated :
  let self := sample_plugin "alert" in
  let self' := (_parse_log line4 self).1 in
  (re_match RE_SIG_LOG line4 ≫= (.!! "ts")) = Some (lit "1700000000.9999999")
  ∧ whole_seconds (lit "1700000000.9999999") = 1700000000
  ∧ iso_of_epoch 1700000000 = lit "2023-11-14T22:13:20"
  ∧ (_parse_log line4 self).2 = Return (Some 1%positive)
  ∧ store self' !! 1%positive ≫= (.!! "alert_time")
    = Some (VStr (lit "2023-11-14T22:13:21"))
  ∧ lit "2023-11-14T22:13:21" ≠ iso_of_epoch 1700000000.
Proof.
  cbv zeta. repeat split; try (vm_compute; reflexivity).
  vm_compute. discriminate.
Qed.

(** C4, amended. When the timestamp has at most six digits after the
    point and fewer than [2^33] whole seconds, the line is parsed and
    [alert_time] is the instant of the whole seconds: the fraction is
    cut off, not rounded. *)
Theorem alert_time_truncates_short_fractions log self g ts tmpl :
  re_match RE_SIG_LOG log = Some g →
  g !! "ts" = Some ts →
  (length (fraction_digits ts) ≤ 6)%nat →
  whole_seconds ts < 2 ^ 33 →
  store self !! parsed_event self = Some tmpl →
  ∃ self' ev event,
    _parse_log log self = (self', Return (Some ev))
    ∧ store self' !! ev = Some event
    ∧ event !! "alert_time" = Some (VStr (iso_of_epoch (whole_seconds ts))).
Proof.
  intros Hg Hts Hlen Hsecs Htmpl.
  destruct (RE_SIG_LOG_groups _ _ Hg)
    as (ip & fp & sa & tsp & da & tdp & Eg & Hip & Hfp & Hsp & _ & Hdp & _ & _).
  assert (Ets : ts = ip ++ "."%char :: fp).
  { rewrite Eg in Hts.
    rewrite !lookup_insert_ne, lookup_insert_eq in Hts by done. congruence. }
  subst ts. unfold whole_seconds, fraction_digits in *.
  rewrite split_point_digits in * by by apply all_digits_forallb.
  cbn [fst snd from_option id] in *.
  pose proof (int_of_digits_bound ip (all_digits_forallb _ Hip)) as [Hn0 _].
  pose proof (int_of_digits_bound fp (all_digits_forallb _ Hfp)) as HF.
  set (n := int_of_digits ip) in *. set (F := int_of_digits fp) in *.
  set (q := 10 ^ Z.of_nat (length fp)) in *.
  assert (Hq : 0 < q ≤ 10 ^ 6).
  { split; [apply Z.pow_pos_nonneg; lia | apply Z.pow_le_mono_r; lia]. }
  destruct (seconds_of_short_fraction n F q) as (us & Hus & _); [lia.. |].
  destruct (utcfromtimestamp_of_seconds _ _ _ Hus) as (dt & Hdt & Hiso); [lia |].
  assert (Hfs : event_fields g
    = Return [ ("alert_time", VStr (iso_of_epoch n));
               ("src_addr", VStr sa); ("src_port", VInt (int_of_digits tsp));
               ("dest_addr", VStr da); ("dest_port", VInt (int_of_digits tdp)) ]).
  { unfold event_fields, getitem, dict_get. rewrite Eg.
    rewrite !lookup_insert_ne, lookup_insert_eq by done.
    rewrite py_float_decimal by done. fold n F q. rewrite Hdt.
    rewrite (lookup_insert_ne _ "dst_port" "src_port") by done.
    rewrite (lookup_insert_ne _ "dst_addr" "src_port") by done.
    rewrite lookup_insert_eq. unfold py_int. rewrite Hsp.
    rewrite lookup_insert_eq, Hdp.
    rewrite (lookup_insert_ne _ "dst_port" "src_addr") by done.
    rewrite (lookup_insert_ne _ "dst_addr" "src_addr") by done.
    rewrite (lookup_insert_ne _ "src_port" "src_addr") by done.
    rewrite lookup_insert_eq.
    rewrite (lookup_insert_ne _ "dst_port" "dst_addr") by done.
    rewrite lookup_insert_eq. by rewrite Hiso. }
  eexists _, _, _. rewrite _parse_log_cases, Hg, Hfs.
  split; [reflexivity |]. split; [by apply after_parse_store |].
  cbn [dict_update foldl fst snd]. by simplify_map_eq.
Qed.

Lemma alert_time_truncates_short_fractions_witness :
  let self := sample_plugin "alert" in
  let line := lit "1700000000.999999 alert 10.0.0.1 443 10.0.0.2 51000" in
  let ts := lit "1700000000.999999" in
  (re_match RE_SIG_LOG line ≫= (.!! "ts")) = Some ts
  ∧ (length (fraction_digits ts) ≤ 6)%nat
  ∧ whole_seconds ts < 2 ^ 33
  ∧ ∃ event,
      store (_parse_log line self).1 !! 1%positive = Some event
      ∧ event !! "alert_time" = Some (VStr (lit "2023-11-14T22:13:20")).
Proof.
  cbv zeta.
  set (line := lit "1700000000.999999 alert 10.0.0.1 443 10.0.0.2 51000").
  set (ts := lit "1700000000.999999").
  set (g := (<["ts" := ts]> (<["src_addr" := lit "10.0.0.1"]>
           (<["src_port" := lit "443"]> (<["dst_addr" := lit "10.0.0.2"]>
           (<["dst_port" := lit "51000"]> ∅)))) : groups)).
  assert (Hg : re_match RE_SIG_LOG line = Some g) by (vm_compute; reflexivity).
  assert (Hts : g !! "ts" = Some ts) by reflexivity.
  assert (Hlen : (length (fraction_digits ts) ≤ 6)%nat) by (vm_compute; lia).
  assert (Hsecs : whole_seconds ts < 2 ^ 33) by (vm_compute; reflexivity).
  assert (Htmpl : store (sample_plugin "alert") !! parsed_event (sample_plugin "alert")
               = Some ({[ "protocol" := VStr (lit "tcp") ]} : dict))
    by reflexivity.
  destruct (alert_time_truncates_short_fractions line _ _ _ _
              Hg Hts Hlen Hsecs Htmpl) as (self' & ev & event & Hp & Hs & Ha).
  split; [rewrite Hg; exact Hts |]. split; [exact Hlen |].
  split; [exact Hsecs |].
  rewrite Hp. cbn [fst].
  assert (Hev : ev = 1%positive).
  { apply _parse_log_success in Hp as (_ & _ & _ & _ & _ & ->). reflexivity. }
  rewrite Hev in Hs. exists event. split; [exact Hs |].
  rewrite Ha. vm_compute. reflexivity.
Defined.

(** * Further properties of the code *)

(** ** What the tailer reads *)

Lemma splitlines_concat cur s : concat (splitlines cur s) = rev cur ++ s.
Proof.
  revert cur. induction s as [|c s IH]; intros cur; cbn [splitlines].
  - destruct cur; [done |]. cbn [concat]. by rewrite !app_nil_r.
  - destruct (bool_decide (c = newline)).
    + cbn [concat]. rewrite IH. cbn [rev app]. by rewrite <- app_assoc.
    + rewrite IH. cbn [rev]. by rewrite <- app_assoc.
Qed.

Lemma elem_of_rev_iff (x : ascii) (l : text) : x ∈ rev l ↔ x ∈ l.
Proof. rewrite !list_elem_of_In. symmetry. apply in_rev. Qed.

Lemma splitlines_shape cur s i l :
  newline ∉ cur →
  splitlines cur s !! i = Some l →
  ∃ body, (newline ∉ body)
          ∧ (l = body ++ [newline]
             ∨ (l = body ∧ body ≠ [] ∧ S i = length (splitlines cur s))).
Proof.
  revert cur i. induction s as [|c s IH]; intros cur i Hcur; cbn [splitlines].
  - destruct cur as [|x cur]; [done |].
    destruct i; [| done]. intros [= <-]. exists (rev (x :: cur)).
    split; [by rewrite elem_of_rev_iff |]. right.
    split; [done |]. split; [| done].
    intros H. apply (f_equal length) in H. rewrite length_rev in H. done.
  - destruct (bool_decide_reflect (c = newline)) as [-> | Hc].
    + destruct i as [|i].
      * intros [= <-]. exists (rev cur). split; [by rewrite elem_of_rev_iff |].
        left. done.
      * cbn [lookup list_lookup]. intros Hl.
        destruct (IH [] i ltac:(apply not_elem_of_nil) Hl) as (body & Hb & H).
        exists body. split; [done |].
        destruct H as [H | (H1 & H2 & H3)]; [by left | right].
        cbn [length]. by rewrite <- H3.
    + apply IH. rewrite elem_of_cons. intros [H | H]; [congruence | done].
Qed.

(** X1. The lines a pass reads, joined, are the text of the file from
    the cursor on: nothing is dropped or added. Every line holds no
    newline but at its end, and only the last one may lack it, in which
    case it is not empty. *)
Theorem readlines_loses_nothing disk pos :
  concat (lines_read disk pos) = drop pos disk
  ∧ ∀ i l, lines_read disk pos !! i = Some l →
      ∃ body, (newline ∉ body)
              ∧ (l = body ++ [newline]
                 ∨ (l = body ∧ body ≠ []
                    ∧ S i = length (lines_read disk pos))).
Proof.
  unfold lines_read, readlines, seek, seek_end, open. cbn [fst offset content].
  split.
  - rewrite splitlines_concat. cbn [rev app].
    destruct (Nat.ltb_spec (length disk) pos); [| done].
    by rewrite !drop_ge by lia.
  - intros i l. apply splitlines_shape, not_elem_of_nil.
Qed.

Lemma yields_app evs1 evs2 : yields (evs1 ++ evs2) = yields evs1 ++ yields evs2.
Proof. apply omap_app. Qed.

(** The passes over a file that only grows, from a cursor at its end. *)
Lemma tail_from_grow sig ival disk adds :
  tail_from sig ival (length disk) (grow disk adds)
  = (length (disk ++ concat adds),
     concat ((λ a, pass_events sig ival (splitlines [] a)) <$> adds)).
Proof.
  revert disk. induction adds as [|a adds IH]; intros disk.
  - cbn. by rewrite app_nil_r.
  - cbn [grow tail_from].
    rewrite tail_cycle_within by (rewrite length_app; lia).
    rewrite drop_app_length, IH. cbn [fmap list_fmap concat].
    by rewrite <- app_assoc.
Qed.

Lemma yields_passes sig ival adds :
  yields (concat ((λ a, pass_events sig ival (splitlines [] a)) <$> adds))
  = concat ((λ a, strip <$> filter (substring sig) (splitlines [] a))
             <$> adds).
Proof.
  induction adds as [|a adds IH]; [done |].
  cbn [fmap list_fmap concat]. rewrite yields_app, IH.
  by rewrite yields_pass_events.
Qed.

Lemma tail_logfile_grow_yields sig ival disk0 adds :
  yields (_tail_logfile sig ival None disk0 (grow disk0 adds)).2
  = concat ((λ a, strip <$> filter (substring sig) (splitlines [] a))
             <$> adds).
Proof.
  unfold _tail_logfile, initial_pos, tell, seek_end, open.
  cbn [offset content]. rewrite tail_from_grow.
  cbn [snd yields omap]. apply yields_passes.
Qed.

(** X2. Started on a file and followed while text is appended to it, the
    tailer hands over the signature lines of the appended texts, each
    once and in order, and nothing of what the file held at the start;
    its cursor ends at the end of the file. *)
Theorem appended_text_is_read_once sig ival disk0 adds :
  (_tail_logfile sig ival None disk0 (grow disk0 adds)).1
  = length (disk0 ++ concat adds)
  ∧ yields (_tail_logfile sig ival None disk0 (grow disk0 adds)).2
    = concat ((λ a, strip <$> filter (substring sig) (splitlines [] a))
                <$> adds).
Proof.
  split; [| apply tail_logfile_grow_yields].
  unfold _tail_logfile, initial_pos, tell, seek_end, open.
  cbn [offset content]. by rewrite tail_from_grow.
Qed.

Lemma splitlines_unfinished cur a :
  newline ∉ a → splitlines cur a = match rev cur ++ a with
                                    | [] => []
                                    | l => [l]
                                    end.
Proof.
  revert cur. induction a as [|c a IH]; intros cur Ha; cbn [splitlines].
  - rewrite app_nil_r. destruct cur as [|x cur]; [done |].
    destruct (rev (x :: cur)) eqn:E; [| done].
    apply (f_equal length) in E. rewrite length_rev in E. done.
  - apply not_elem_of_cons in Ha as [Hc Ha].
    destruct (bool_decide_reflect (c = newline)) as [-> | _]; [done |].
    rewrite IH by done. cbn [rev]. by rewrite <- app_assoc.
Qed.

Lemma splitlines_one_line b :
  newline ∉ b → splitlines [] (b ++ [newline]) = [b ++ [newline]].
Proof.
  intros Hb. assert (H : ∀ cur, splitlines cur (b ++ [newline])
                              = [rev cur ++ b ++ [newline]]).
  { induction b as [|c b IH]; intros cur; cbn [app splitlines].
    - rewrite bool_decide_eq_true_2 by done. done.
    - apply not_elem_of_cons in Hb as [Hc Hb].
      rewrite bool_decide_eq_false_2 by done.
      rewrite IH by done. cbn [rev]. by rewrite <- app_assoc. }
  apply H.
Qed.

(** X3. A line that reaches the file in two pieces, the first before a
    pass and the rest after it, is not put together again: each piece is
    tested for the signature and handed over as a line of its own,
    whereas the line written at once is handed over whole. *)
Theorem line_in_two_writes_is_two_lines sig ival disk0 a b :
  a ≠ [] → newline ∉ a → newline ∉ b →
  yields (_tail_logfile sig ival None disk0
            (grow disk0 [a; b ++ [newline]])).2
  = strip <$> filter (substring sig) [a; b ++ [newline]]
  ∧ yields (_tail_logfile sig ival None disk0
              (grow disk0 [a ++ b ++ [newline]])).2
    = strip <$> filter (substring sig) [a ++ b ++ [newline]].
Proof.
  intros Hne Ha Hb. rewrite !tail_logfile_grow_yields.
  cbn [fmap list_fmap concat]. rewrite !app_nil_r.
  rewrite (splitlines_unfinished [] a) by done. cbn [rev app].
  rewrite (splitlines_one_line b) by done.
  replace (a ++ b ++ [newline]) with ((a ++ b) ++ [newline])
    by by rewrite <- app_assoc.
  rewrite (splitlines_one_line (a ++ b))
    by (rewrite elem_of_app; intros [H | H]; done).
  destruct a as [|c a]; [done |].
  split; [| done].
  rewrite <- fmap_app, <- filter_app. done.
Qed.

Lemma line_in_two_writes_is_two_lines_witness :
  let a := lit "1700000000.5 al" in
  let b := lit "ert 10.0.0.1 443 10.0.0.2 51000" in
  a ≠ [] ∧ (newline ∉ a) ∧ (newline ∉ b)
  ∧ yields (_tail_logfile (lit "alert") 3 None []
              (grow [] [a; b ++ [newline]])).2 = []
  ∧ yields (_tail_logfile (lit "alert") 3 None []
              (grow [] [a ++ b ++ [newline]])).2 = [a ++ b].
Proof.
  cbv zeta.
  set (a := lit "1700000000.5 al").
  set (b := lit "ert 10.0.0.1 443 10.0.0.2 51000").
  assert (H1 : a ≠ []) by discriminate.
  assert (H2 : newline ∉ a)
    by (apply (bool_decide_unpack (newline ∉ a)); vm_compute; exact I).
  assert (H3 : newline ∉ b)
    by (apply (bool_decide_unpack (newline ∉ b)); vm_compute; exact I).
  destruct (line_in_two_writes_is_two_lines (lit "alert") 3 [] a b H1 H2 H3)
    as [E1 E2].
  split; [exact H1 |]. split; [exact H2 |]. split; [exact H3 |].
  split.
  - rewrite E1. vm_compute. reflexivity.
  - rewrite E2. vm_compute. reflexivity.
Defined.


Lemma prefilter_never_sleeps sig lines : sleeps (prefilter sig lines) = [].
Proof.
  induction lines as [|l lines IH]; [done |]. cbn [prefilter].
  destruct (contains sig l); exact IH.
Qed.


(** X5. A pass sleeps, once and for [self.interval], exactly when it
    read no line; it then hands nothing over. A pass that read a line
    does not sleep before the next pass. *)
Theorem sleeps_iff_nothing_read sig ival disk pos :
  let evs := (tail_cycle sig ival disk pos).2 in
  match lines_read disk pos with
  | [] => sleeps evs = [ival] ∧ yields evs = []
  | _ :: _ => sleeps evs = []
  end.
Proof.
  cbv zeta. unfold lines_read, readlines, seek, seek_end, open.
  cbn [fst offset content].
  destruct (Nat.ltb_spec (length disk) pos) as [Hlt | Hle].
  - rewrite tail_cycle_shorter by done. by rewrite drop_all.
  - rewrite tail_cycle_within by done. cbn [snd]. unfold pass_events.
    destruct (splitlines [] (drop pos disk)) as [|l lines]; [done |].
    change (sleeps (prefilter sig (l :: lines)) = []).
    apply prefilter_never_sleeps.
Qed.

(** X6. With an empty signature every line read is handed over: the
    empty text occurs in every line. *)
Theorem empty_signature_yields_every_line ival disk pos :
  yields (tail_cycle [] ival disk pos).2 = strip <$> lines_read disk pos.
Proof.
  rewrite tail_cycle_events. f_equal.
  induction (lines_read disk pos) as [|l lines IH]; [done |].
  rewrite filter_cons_True by by exists [], l. by rewrite IH.
Qed.

(** ** What the pattern takes *)

(** A greedy repetition takes a whole run when the run ends there and
    the rest of the pattern matches after it. *)
Lemma rep_match_run {R} p lo hi u v (k : text → option R) r :
  forallb p u = true → (lo ≤ length u)%nat → within hi (length u) →
  (hi = Some (length u) ∨ match v with [] => True | c :: _ => p c = false end) →
  k v = Some r →
  rep_match p lo hi (u ++ v) k = Some r.
Proof.
  revert lo hi. induction u as [|c u IH]; intros lo hi Hp Hlo Hhi Hend Hk.
  - cbn [app]. destruct lo; [| cbn in Hlo; lia].
    destruct v as [|c v]; cbn [rep_match]; [done |].
    destruct Hend as [-> | Hc]; [by rewrite andb_false_r |].
    by rewrite Hc.
  - cbn [forallb] in Hp. apply andb_true_iff in Hp as [Hc Hp].
    cbn [app rep_match]. rewrite Hc.
    assert (Hm : may_repeat hi = true)
      by (destruct hi as [[|h] |]; cbn in *; [lia | done | done]).
    rewrite Hm. cbn [andb].
    rewrite (IH (pred lo) (pred <$> hi)); try done.
    + cbn [length] in Hlo. lia.
    + destruct hi as [h |]; cbn in *; [lia | done].
    + destruct Hend as [-> | Hv]; [by left | by right].
Qed.

Lemma isspace_not_digit c : isspace c = true → isdigit c = false.
Proof.
  unfold isspace, isdigit. intros H.
  destruct ((48 <=? code c)%N && (code c <=? 57)%N) eqn:E; [| done].
  apply andb_true_iff in E as [E1 E2]. apply N.leb_le in E1, E2.
  repeat (apply orb_true_iff in H as [H | H]);
    try (apply andb_true_iff in H as [H1 H2]; apply N.leb_le in H1, H2; lia);
    apply N.eqb_eq in H; lia.
Qed.

Lemma isspace_not_S c : isspace c = true → S_ c = false.
Proof. unfold S_. by intros ->. Qed.

Lemma token_forallb s : token s = true → forallb S_ s = true ∧ (1 ≤ length s)%nat.
Proof. destruct s; [done |]. cbn [token length]. split; [done | lia]. Qed.

Lemma port_digits_inv s :
  port_digits s = true →
  all_digits s = true ∧ forallb d_ s = true ∧ (1 ≤ length s ≤ 5)%nat.
Proof.
  unfold port_digits. rewrite andb_true_iff, Nat.leb_le. intros [Hd Hl].
  split; [done |]. split; [by apply all_digits_forallb |].
  destruct s; [done |]. cbn [length] in *. lia.
Qed.

Lemma all_digits_inv s :
  all_digits s = true → forallb d_ s = true ∧ (1 ≤ length s)%nat.
Proof. destruct s; [done |]. cbn [all_digits length]. split; [done | lia]. Qed.

Lemma well_formed_line_groups ip fp uid sa sp da dp w1 w2 w3 w4 w5 rest :
  all_digits ip = true → all_digits fp = true → token uid = true →
  token sa = true → port_digits sp = true →
  token da = true → port_digits dp = true →
  isspace w1 = true → isspace w2 = true → isspace w3 = true →
  isspace w4 = true → isspace w5 = true →
  port_ends dp rest →
  re_match RE_SIG_LOG (zeek_line ip fp uid sa sp da dp w1 w2 w3 w4 w5 rest)
  = Some (zeek_groups ip fp sa sp da dp).
Proof.
  intros Hip Hfp Huid Hsa Hsp Hda Hdp H1 H2 H3 H4 H5 Hend.
  apply all_digits_inv in Hip as [Hip Lip]. apply all_digits_inv in Hfp as [Hfp Lfp].
  apply token_forallb in Huid as [Huid Luid].
  apply token_forallb in Hsa as [Hsa Lsa]. apply token_forallb in Hda as [Hda Lda].
  apply port_digits_inv in Hsp as (_ & Hsp & Lsp).
  apply port_digits_inv in Hdp as (_ & Hdp & Ldp).
  unfold re_match, zeek_line. cbn [RE_SIG_LOG cat fold_left re_run].
  apply rep_match_run; [exact Hip | lia | exact I | by right |].
  cbv beta iota. unfold dot_ at 1. rewrite bool_decide_eq_true_2 by done.
  apply rep_match_run;
    [exact Hfp | lia | exact I | right; by apply isspace_not_digit |].
  cbv beta iota. unfold s_ at 1. rewrite H1.
  apply rep_match_run;
    [exact Huid | lia | exact I | right; by apply isspace_not_S |].
  cbv beta iota. unfold s_ at 1. rewrite H2.
  apply rep_match_run;
    [exact Hsa | lia | exact I | right; by apply isspace_not_S |].
  cbv beta iota. unfold s_ at 1. rewrite H3.
  apply rep_match_run;
    [exact Hsp | lia | cbn; lia | right; by apply isspace_not_digit |].
  cbv beta iota. unfold s_ at 1. rewrite H4.
  apply rep_match_run;
    [exact Hda | lia | exact I | right; by apply isspace_not_S |].
  cbv beta iota. unfold s_ at 1. rewrite H5.
  apply rep_match_run; [exact Hdp | lia | cbn; lia | |].
  { destruct Hend as [-> | Hend]; [by left | by right]. }
  unfold zeek_groups. f_equal. f_equal.
  { by apply take_prefix_of. }
  f_equal. f_equal.
  { by apply take_prefix_of. }
  f_equal.
  { by apply take_prefix_of. }
  f_equal.
  { by apply take_prefix_of. }
  f_equal. apply take_prefix_of.
  rewrite <- app_assoc. reflexivity.
Qed.

(** The digits of a port, stretched as far as the pattern lets them. *)
Lemma port_stretch n dp0 rest0 :
  forallb d_ dp0 = true → (1 ≤ length dp0 ≤ 5)%nat → (5 - length dp0 = n)%nat →
  ∃ dp rest, dp0 ++ rest0 = dp ++ rest ∧ port_digits dp = true
             ∧ port_ends dp rest.
Proof.
  revert dp0 rest0. induction n as [|n IH]; intros dp0 rest0 Hd Hl Hn.
  - exists dp0, rest0. split; [done |]. split; [| left; lia].
    unfold port_digits. apply andb_true_iff. split; [| apply Nat.leb_le; lia].
    unfold all_digits. destruct dp0; [cbn in Hl; lia | done].
  - destruct rest0 as [|c rest0].
    + exists dp0, []. split; [done |]. split; [| by right].
      unfold port_digits. apply andb_true_iff. split; [| apply Nat.leb_le; lia].
      unfold all_digits. destruct dp0; [cbn in Hl; lia | done].
    + destruct (isdigit c) eqn:Hc.
      * destruct (IH (dp0 ++ [c]) rest0) as (dp & rest & E & H1 & H2).
        -- rewrite forallb_app, Hd. cbn [forallb andb]. unfold d_.
           by rewrite Hc.
        -- rewrite length_app. cbn. lia.
        -- rewrite length_app. cbn. lia.
        -- exists dp, rest. split; [| done]. rewrite <- E.
           by rewrite <- app_assoc.
      * exists dp0, (c :: rest0). split; [done |]. split; [| by right].
        unfold port_digits. apply andb_true_iff.
        split; [| apply Nat.leb_le; lia].
        unfold all_digits. destruct dp0; [cbn in Hl; lia | done].
Qed.

Lemma token_of_run n s :
  (1 ≤ n ≤ length s)%nat → forallb S_ (take n s) = true →
  token (take n s) = true.
Proof.
  intros Hn Hp. unfold token. destruct (take n s) eqn:E; [| done].
  apply (f_equal length) in E. rewrite length_take in E. cbn in E. lia.
Qed.

(** Every line the pattern takes is made of the fields of a line of the
    log. *)
Lemma RE_SIG_LOG_fields log g :
  re_match RE_SIG_LOG log = Some g →
  ∃ ip fp uid sa sp da dp w1 w2 w3 w4 w5 rest,
    log = zeek_line ip fp uid sa sp da dp w1 w2 w3 w4 w5 rest
    ∧ well_formed ip fp uid sa sp da dp w1 w2 w3 w4 w5 rest.
Proof.
  unfold re_match. intros H.
  apply re_run_sound in H as (s' & caps' & H & _).
  cbn in H.
  destruct H as (s1 & caps1 & A1
    & (caps2' & (ndp & Hndp & Hwdp & Hdp & Hs' & _) & _)).
  destruct A1 as (s2 & caps2 & A2 & (c2 & Hs2 & Hc2 & _)).
  destruct A2 as (s3 & caps3 & A3
    & (caps4' & (nda & Hnda & _ & Hda & Hs2' & _) & _)).
  destruct A3 as (s4 & caps4 & A4 & (c4 & Hs4 & Hc4 & _)).
  destruct A4 as (s5 & caps5 & A5
    & (caps6' & (nsp & Hnsp & Hwsp & Hsp & Hs4' & _) & _)).
  destruct A5 as (s6 & caps6 & A6 & (c6 & Hs6 & Hc6 & _)).
  destruct A6 as (s7 & caps7 & A7
    & (caps8' & (nsa & Hnsa & _ & Hsa & Hs6' & _) & _)).
  destruct A7 as (s8 & caps8 & A8 & (c8 & Hs8 & Hc8 & _)).
  destruct A8 as (s9 & caps9 & A9 & (n9 & Hn9 & _ & Huid & Hs8' & _)).
  destruct A9 as (s10 & caps10 & A10 & (c10 & Hs10 & Hc10 & _)).
  destruct A10 as (caps11 & B & _).
  destruct B as (s11 & caps12 & B1 & (nfp & Hnfp & _ & Hfp & Hs10' & _)).
  destruct B1 as (s12 & caps13 & (nip & Hnip & _ & Hip & Hs12 & _)
    & (c & Hs12' & Hdot & _)).
  apply bool_decide_eq_true in Hdot as ->.
  cbn in Hwdp, Hwsp.
  destruct (port_stretch (5 - length (take ndp s1)) (take ndp s1) (drop ndp s1))
    as (dp & rest & Edp & Pdp & Hend);
    [done | rewrite length_take; lia | done |].
  rewrite take_drop in Edp.
  exists (take nip log), (take nfp s11), (take n9 s9), (take nsa s7),
    (take nsp s5), (take nda s3), dp, c10, c8, c6, c4, c2, rest.
  split.
  - unfold zeek_line. rewrite <- Edp, <- Hs2.
    rewrite Hs2', (take_drop nda s3), <- Hs4.
    rewrite Hs4', (take_drop nsp s5), <- Hs6.
    rewrite Hs6', (take_drop nsa s7), <- Hs8.
    rewrite Hs8', (take_drop n9 s9), <- Hs10.
    rewrite Hs10', (take_drop nfp s11), <- Hs12'.
    rewrite Hs12, (take_drop nip log). done.
  - unfold well_formed. repeat split; try done.
    + by apply all_digits_take.
    + by apply all_digits_take.
    + by apply token_of_run.
    + by apply token_of_run.
    + unfold port_digits. rewrite all_digits_take by done.
      apply Nat.leb_le. rewrite length_take. lia.
    + by apply token_of_run.
    + cbn [forallb]. unfold s_ in *. by rewrite Hc10, Hc8, Hc6, Hc4, Hc2.
Qed.

Lemma well_formed_matches ip fp uid sa sp da dp w1 w2 w3 w4 w5 rest :
  well_formed ip fp uid sa sp da dp w1 w2 w3 w4 w5 rest →
  re_match RE_SIG_LOG (zeek_line ip fp uid sa sp da dp w1 w2 w3 w4 w5 rest)
  = Some (zeek_groups ip fp sa sp da dp).
Proof.
  intros (H1 & H2 & H3 & H4 & H5 & H6 & H7 & Hw & Hend).
  cbn [forallb] in Hw. rewrite andb_true_r in Hw.
  repeat (apply andb_true_iff in Hw as [? Hw]).
  by apply well_formed_line_groups.
Qed.

(** Every line the pattern takes is a line of the log, and the groups
    are its fields. *)
Lemma RE_SIG_LOG_shape log g :
  re_match RE_SIG_LOG log = Some g →
  ∃ ip fp uid sa sp da dp w1 w2 w3 w4 w5 rest,
    log = zeek_line ip fp uid sa sp da dp w1 w2 w3 w4 w5 rest
    ∧ well_formed ip fp uid sa sp da dp w1 w2 w3 w4 w5 rest
    ∧ g = zeek_groups ip fp sa sp da dp.
Proof.
  intros Hg.
  destruct (RE_SIG_LOG_fields _ _ Hg)
    as (ip & fp & uid & sa & sp & da & dp & w1 & w2 & w3 & w4 & w5 & rest
        & -> & Hwf).
  exists ip, fp, uid, sa, sp, da, dp, w1, w2, w3, w4, w5, rest.
  split; [done |]. split; [done |].
  rewrite (well_formed_matches _ _ _ _ _ _ _ _ _ _ _ _ _ Hwf) in Hg. congruence.
Qed.

(** X7. The lines the pattern takes are exactly the lines of the log:
    a timestamp of digits, a point and digits, one field, and the source
    and destination addresses each before a port of one to five digits,
    with one whitespace character between two fields. The groups are
    these fields, the last port taking as many digits as it can, up to
    five; what follows is ignored. *)
Theorem pattern_takes_exactly_the_log_lines log g :
  re_match RE_SIG_LOG log = Some g
  ↔ ∃ ip fp uid sa sp da dp w1 w2 w3 w4 w5 rest,
      log = zeek_line ip fp uid sa sp da dp w1 w2 w3 w4 w5 rest
      ∧ well_formed ip fp uid sa sp da dp w1 w2 w3 w4 w5 rest
      ∧ g = zeek_groups ip fp sa sp da dp.
Proof.
  split; [apply RE_SIG_LOG_shape |].
  intros (ip & fp & uid & sa & sp & da & dp & w1 & w2 & w3 & w4 & w5 & rest
          & -> & Hwf & ->).
  by apply well_formed_matches.
Qed.

(** ** What the parser does with a line *)

Lemma zeek_groups_lookup ip fp sa sp da dp :
  let g := zeek_groups ip fp sa sp da dp in
  g !! "ts" = Some (ip ++ "."%char :: fp) ∧ g !! "src_addr" = Some sa
  ∧ g !! "src_port" = Some sp ∧ g !! "dst_addr" = Some da
  ∧ g !! "dst_port" = Some dp.
Proof.
  cbv zeta. unfold zeek_groups.
  repeat split; by rewrite ?lookup_insert_eq, ?lookup_insert_ne by done;
    rewrite ?lookup_insert_eq, ?lookup_insert_ne by done;
    rewrite ?lookup_insert_eq, ?lookup_insert_ne by done.
Qed.

Lemma py_int_of_digits s :
  all_digits s = true → py_int (VStr s) = Return (int_of_digits s).
Proof. intros H. unfold py_int. by rewrite H. Qed.

(** The fields derived from the groups of a line: all conversions but
    that of the timestamp to a date succeed. *)
Lemma event_fields_zeek_groups ip fp sa sp da dp :
  all_digits ip = true → all_digits fp = true →
  all_digits sp = true → all_digits dp = true →
  event_fields (zeek_groups ip fp sa sp da dp)
  = match utcfromtimestamp
            (round64 (int_of_digits ip * 10 ^ Z.of_nat (length fp)
                      + int_of_digits fp) (10 ^ Z.of_nat (length fp))) with
    | Raise e => Raise e
    | Return dt =>
        Return [ ("alert_time", VStr (isoformat_seconds dt));
                 ("src_addr", VStr sa);
                 ("src_port", VInt (int_of_digits sp));
                 ("dest_addr", VStr da);
                 ("dest_port", VInt (int_of_digits dp)) ]
    end.
Proof.
  intros Hip Hfp Hsp Hdp.
  destruct (zeek_groups_lookup ip fp sa sp da dp) as (G1 & G2 & G3 & G4 & G5).
  unfold event_fields, getitem, dict_get. rewrite G1, G2, G3, G4, G5.
  rewrite py_float_decimal by done.
  destruct (utcfromtimestamp _); [| done].
  by rewrite !py_int_of_digits by done.
Qed.

Lemma seconds_and_micros_raises secs e :
  seconds_and_micros secs = Raise e → e = OutOfRange.
Proof.
  unfold seconds_and_micros.
  destruct secs as [m ex |]; [| by intros [= <-]].
  destruct (round64 _ _) as [m' e' |]; [done | by intros [= <-]].
Qed.

Lemma utcfromtimestamp_raises secs e :
  utcfromtimestamp secs = Raise e → e = OutOfRange.
Proof.
  unfold utcfromtimestamp.
  destruct (seconds_and_micros secs) as [[t us] | e'] eqn:Hs.
  - destruct (gmtime t) as [[[[[y mo] d] hh] mm] ss].
    destruct (_ && _); [done | by intros [= <-]].
  - intros [= <-]. by apply seconds_and_micros_raises in Hs.
Qed.

Lemma well_formed_digits ip fp uid sa sp da dp w1 w2 w3 w4 w5 rest :
  well_formed ip fp uid sa sp da dp w1 w2 w3 w4 w5 rest →
  all_digits ip = true ∧ all_digits fp = true
  ∧ all_digits sp = true ∧ all_digits dp = true.
Proof.
  intros (H1 & H2 & _ & _ & H5 & _ & H7 & _).
  apply port_digits_inv in H5 as (H5 & _). apply port_digits_inv in H7 as (H7 & _).
  done.
Qed.


(** X9. The pattern is tried at the start of the line only: a line that
    does not begin with a digit (a header line of the log, say) is never
    parsed, wherever the rest of it looks like; [_parse_log] raises
    AttributeError and leaves the plugin as it was. *)
Theorem line_must_start_with_digit log self :
  match log with c :: _ => isdigit c = false | [] => True end →
  _parse_log log self = (self, Raise AttributeError).
Proof.
  intros Hhead. rewrite _parse_log_cases.
  destruct (re_match RE_SIG_LOG log) as [g |] eqn:Hg; [| done].
  exfalso.
  destruct (RE_SIG_LOG_shape log g Hg)
    as (ip & fp & uid & sa & sp & da & dp & w1 & w2 & w3 & w4 & w5 & rest
        & -> & (Hip & _) & _).
  destruct ip as [|c ip]; [done |].
  cbn [zeek_line app all_digits forallb] in *.
  apply andb_true_iff in Hip as [Hc _]. congruence.
Qed.

Lemma line_must_start_with_digit_witness :
  let log := lit "#fields ts uid 1700000000.5 alert 10.0.0.1 443 10.0.0.2 80" in
  isdigit "#"%char = false
  ∧ _parse_log log (sample_plugin "alert")
    = (sample_plugin "alert", Raise AttributeError).
Proof.
  cbv zeta. split; [reflexivity |].
  apply line_must_start_with_digit. reflexivity.
Defined.

(** X10. A call of [_parse_log] that raises has not touched the event,
    any other object, the queue or the attribute: the event is written
    only after every field has been derived. *)
Theorem failed_parse_leaves_event_untouched log self self' e :
  _parse_log log self = (self', Raise e) →
  store self' = store self ∧ queue self' = queue self
  ∧ parsed_event self' = parsed_event self ∧ config self' = config self.
Proof.
  rewrite _parse_log_cases.
  destruct (re_match RE_SIG_LOG log) as [g |]; [| by intros [= <- _]].
  destruct (event_fields g) as [fs | e']; [done |].
  by intros [= <- _].
Qed.

Lemma failed_parse_leaves_event_untouched_witness :
  let self := sample_plugin "alert" in
  let log := lit "253402300800.0 alert 10.0.0.1 443 10.0.0.2 80" in
  (_parse_log log self).2 = Raise OutOfRange
  ∧ store (_parse_log log self).1 = store self.
Proof.
  cbv zeta.
  set (self := sample_plugin "alert").
  set (log := lit "253402300800.0 alert 10.0.0.1 443 10.0.0.2 80").
  assert (H : _parse_log log self = ((_parse_log log self).1, Raise OutOfRange))
    by (vm_compute; reflexivity).
  split; [rewrite H; reflexivity |].
  exact (proj1 (failed_parse_leaves_event_untouched _ _ _ _ H)).
Defined.

(** ** What the loop publishes *)

(** The loop puts the reference of the one event on the queue once for
    each line it has parsed. *)
Lemma consume_queue evs self :
  ∃ k, queue (consume evs self).1
       = queue self ++ replicate k (parsed_event self)
       ∧ match (consume evs self).2 with
         | Return _ => k = length (yields evs)
         | Raise _ => (k < length (yields evs))%nat
         end.
Proof.
  revert self. induction evs as [|ev evs IH]; intros self.
  - exists 0%nat. cbn. by rewrite app_nil_r.
  - destruct ev as [r | l | n]; cbn [consume].
    + destruct (IH (log_ (lvl r) (msg r) self).1) as (k & Hq & Hk).
      exists k. split; [exact Hq | exact Hk].
    + unfold mbind, py_bind. rewrite run_body_cases.
      change (yields (GYield l :: evs)) with (l :: yields evs).
      destruct (re_match RE_SIG_LOG l) as [g |].
      2: { exists 0%nat. cbn. rewrite app_nil_r. split; [done | lia]. }
      destruct (event_fields g) as [fs | e].
      2: { exists 0%nat. cbn. rewrite app_nil_r. split; [done | lia]. }
      destruct (IH (published fs self)) as (k & Hq & Hk).
      cbn [queue parsed_event published] in Hq.
      exists (S k). split.
      * rewrite Hq, <- app_assoc. done.
      * destruct (consume evs (published fs self)).2; cbn [length]; lia.
    + apply IH.
Qed.

(** X11. After any number of passes, the queue has gained the reference
    of the plugin's one event, once for each line the loop has parsed:
    for every line the tailer handed over if [run] has not raised, for
    fewer if it has (the line that raised and those after it are not
    published). *)
Theorem run_publishes_once_per_line disk0 disks self :
  let handed :=
    yields (_tail_logfile (sig_name (config self)) (interval self) None
              disk0 disks).2 in
  ∃ k, queue (run disk0 disks self).1
       = queue self ++ replicate k (parsed_event self)
       ∧ match (run disk0 disks self).2 with
         | Return _ => k = length handed
         | Raise _ => (k < length handed)%nat
         end.
Proof.
  cbv zeta. unfold run, mbind, py_bind. cbn [log_ get_self].
  match goal with
  | |- context [consume ?evs ?st] => destruct (consume_queue evs st) as (k & Hq & Hk)
  end.
  exists k. split; [exact Hq | exact Hk].
Qed.

(** ** Timestamps at the ends of the range *)

Lemma round_half_even_ge a b n :
  0 < b → n * b ≤ a → n ≤ round_half_even a b.
Proof.
  intros Hb Ha. pose proof (round_half_even_bounds a b Hb) as [H _].
  set (m := round_half_even a b) in *. clearbody m.
  destruct (Z.le_gt_cases n m) as [| Hlt]; [done | exfalso].
  assert ((m + 1) * b ≤ n * b) by (apply Z.mul_le_mono_nonneg_r; lia).
  lia.
Qed.

(** The binade is not above the number. *)
Lemma ilog2_lower p q :
  0 < p → 0 < q → 0 ≤ ilog2 p q → q * 2 ^ ilog2 p q ≤ p.
Proof.
  intros Hp Hq. unfold ilog2.
  pose proof (Z.log2_spec p Hp) as [Hp1 _].
  pose proof (Z.log2_spec q Hq) as [_ Hq2].
  pose proof (Z.log2_nonneg p). pose proof (Z.log2_nonneg q).
  set (lp := Z.log2 p) in *. set (lq := Z.log2 q) in *. clearbody lp lq.
  destruct (Z.ltb_spec (p * pow2 (- (lp - lq))) (q * pow2 (lp - lq)))
    as [_ | Hge]; intros HK.
  - (* q < 2^(lq+1) and 2^lp <= p *)
    replace lp with ((lq + 1) + (lp - lq - 1)) in Hp1 by lia.
    rewrite Z.pow_add_r in Hp1 by lia.
    assert (0 < 2 ^ (lp - lq - 1)) by (apply Z.pow_pos_nonneg; lia).
    assert (q * 2 ^ (lp - lq - 1) ≤ 2 ^ (lq + 1) * 2 ^ (lp - lq - 1))
      by (apply Z.mul_le_mono_nonneg_r; lia).
    replace (Z.succ lq) with (lq + 1) in Hq2 by lia. lia.
  - rewrite (pow2_nonpos (- (lp - lq))), (pow2_nonneg (lp - lq)) in Hge by lia.
    lia.
Qed.

Lemma round64_nonneg p q m e :
  0 ≤ p → 0 < q → round64 p q = Finite m e → 0 ≤ m.
Proof.
  intros Hp Hq. unfold round64.
  destruct (p =? 0); [by intros [= <- _] |].
  destruct (_ <=? _); [done |]. intros [= <- _].
  apply round_half_even_nonneg.
  - apply Z.mul_nonneg_nonneg; [done | apply Z.lt_le_incl, pow2_pos].
  - apply Z.mul_pos_pos; [done | apply pow2_pos].
Qed.

(** Rounding to binary64 does not take a number below an integer it is
    not below, as long as the integer has fewer than 54 bits. *)
Lemma round64_lower p q N :
  0 < q → 0 ≤ N < 2 ^ 53 → N * q ≤ p →
  match round64 p q with
  | Infinity => True
  | Finite m e => N * pow2 (- e) ≤ m * pow2 e
  end.
Proof.
  intros Hq HN Hp. unfold round64.
  destruct (Z.eqb_spec p 0) as [-> | Hp0].
  { assert (N = 0) as -> by nia. done. }
  assert (Hpp : 0 < p) by nia.
  set (e := Z.max (ilog2 p q - 52) (-1074)).
  destruct (_ <=? _); [done |].
  destruct (Z.le_gt_cases e 0) as [He | He].
  - rewrite (pow2_nonpos e), Z.mul_1_r by done. rewrite Z.mul_1_r.
    apply round_half_even_ge; [done |].
    rewrite <- Z.mul_assoc, (Z.mul_comm (pow2 (- e)) q), Z.mul_assoc.
    apply Z.mul_le_mono_nonneg_r; [pose proof (pow2_pos (- e)); lia | done].
  - assert (HK : e = ilog2 p q - 52) by lia.
    rewrite (pow2_nonneg e), (pow2_nonpos (- e)), !Z.mul_1_r by lia.
    pose proof (ilog2_lower p q Hpp Hq ltac:(lia)) as Hlow.
    replace (ilog2 p q) with (52 + e) in Hlow by lia.
    rewrite Z.pow_add_r in Hlow by lia.
    assert (H2e : 2 ≤ 2 ^ e).
    { change 2 with (2 ^ 1) at 1. apply Z.pow_le_mono_r; lia. }
    assert (Hm : 2 ^ 52 ≤ round_half_even p (q * 2 ^ e)).
    { apply round_half_even_ge; [apply Z.mul_pos_pos; lia | lia]. }
    set (m := round_half_even p (q * 2 ^ e)) in *. clearbody m.
    assert (2 ^ 52 * 2 ≤ m * 2 ^ e).
    { apply Z.mul_le_mono_nonneg; lia. }
    change (2 ^ 53) with (2 ^ 52 * 2) in HN. lia.
Qed.

(** The whole seconds of a binary64 number are not below an integer the
    number is not below. *)
Lemma seconds_and_micros_lower m e N :
  0 ≤ m → N * pow2 (- e) ≤ m * pow2 e →
  match seconds_and_micros (Finite m e) with
  | Return (t, us) => N ≤ t ∧ 0 ≤ us
  | Raise _ => True
  end.
Proof.
  intros Hm HN. unfold seconds_and_micros.
  pose proof (pow2_pos e) as He. pose proof (pow2_pos (- e)) as Hd.
  set (num := m * pow2 e) in *. set (den := pow2 (- e)) in *.
  assert (Hnum : 0 ≤ num) by (apply Z.mul_nonneg_nonneg; lia).
  assert (Hdiv : N ≤ num / den)
    by (apply Z.div_le_lower_bound; [done | lia]).
  pose proof (Z.mod_pos_bound num den Hd) as Hfrac.
  destruct (round64 (num mod den * 10 ^ 6) den) as [m' e' |] eqn:Hr; [| done].
  apply round64_nonneg in Hr; [| lia | done].
  assert (Hus : 0 ≤ round_half_even (m' * pow2 e') (pow2 (- e'))).
  { apply round_half_even_nonneg; [| apply pow2_pos].
    apply Z.mul_nonneg_nonneg; [done | pose proof (pow2_pos e'); lia]. }
  set (us := round_half_even (m' * pow2 e') (pow2 (- e'))) in *. clearbody us.
  destruct (Z.leb_spec 1000000 us); [lia |].
  destruct (Z.ltb_spec us 0); lia.
Qed.

Lemma year_from_1970 doe :
  135080 ≤ doe < 146097 → 370 ≤ (civil_of_doe doe).1.1.
Proof.
  intros Hdoe.
  assert (H : all_from (λ doe, 370 <=? (civil_of_doe doe).1.1)
                (Z.to_nat 11017) 135080 = true) by (vm_compute; reflexivity).
  apply Z.leb_le. apply (all_from_spec _ _ _ H). lia.
Qed.

Lemma year_10000 doe :
  146037 ≤ doe < 146097 → (civil_of_doe doe).1.1 = 400.
Proof.
  intros Hdoe.
  assert (H : all_from (λ doe, (civil_of_doe doe).1.1 =? 400)
                (Z.to_nat 60) 146037 = true) by (vm_compute; reflexivity).
  apply Z.eqb_eq. apply (all_from_spec _ _ _ H). lia.
Qed.

Lemma gmtime_year t :
  let '(y, mo, d, hh, mm, ss) := gmtime t in
  (0 ≤ t → 1970 ≤ y) ∧ (253402300800 ≤ t → 10000 ≤ y).
Proof.
  unfold gmtime. rewrite civil_from_days_era.
  set (days := t / 86400).
  pose proof (civil_of_doe_year ((days + 719468) mod 146097)
                ltac:(apply Z.mod_pos_bound; lia)) as Hy.
  pose proof (year_from_1970 ((days + 719468) mod 146097)) as H1970.
  pose proof (year_10000 ((days + 719468) mod 146097)) as H10000.
  pose proof (Z.mod_pos_bound (days + 719468) 146097 ltac:(lia)) as Hdoe.
  pose proof (Z.div_mod (days + 719468) 146097 ltac:(lia)) as Hdm.
  destruct (civil_of_doe ((days + 719468) mod 146097)) as [[y m] d].
  cbn [fst] in *.
  set (era := (days + 719468) / 146097) in *.
  set (doe := (days + 719468) mod 146097) in *. clearbody era doe.
  split; intros Ht.
  - assert (0 ≤ days) by (unfold days; Z.div_mod_to_equations; lia).
    destruct (Z.le_gt_cases 5 era); [lia |].
    assert (era = 4) as -> by lia. lia.
  - assert (2932897 ≤ days) by (unfold days; Z.div_mod_to_equations; lia).
    destruct (Z.le_gt_cases 25 era); [lia |].
    assert (era = 24) as -> by lia. lia.
Qed.

(** The year of the instant of a timestamp that is not below [N]
    seconds. *)
Lemma utcfromtimestamp_year p q N dt :
  0 < q → 0 ≤ N < 2 ^ 53 → N * q ≤ p →
  utcfromtimestamp (round64 p q) = Return dt →
  1970 ≤ year dt ≤ 9999 ∧ (253402300800 ≤ N → False).
Proof.
  intros Hq HN Hp Hdt.
  pose proof (round64_lower p q N Hq HN Hp) as Hlow.
  assert (Hp0 : 0 ≤ p) by nia.
  destruct (round64 p q) as [m e |] eqn:Hr; [| done].
  apply round64_nonneg in Hr; [| done | done].
  pose proof (seconds_and_micros_lower m e N Hr Hlow) as Hs.
  unfold utcfromtimestamp in Hdt.
  destruct (seconds_and_micros (Finite m e)) as [[t us] | e']; [| done].
  destruct Hs as [Ht _].
  pose proof (gmtime_year t) as Hy.
  destruct (gmtime t) as [[[[[y mo] d] hh] mm] ss].
  destruct ((MINYEAR <=? y) && (y <=? MAXYEAR)) eqn:Hc; [| done].
  injection Hdt as <-. cbn [year].
  apply andb_true_iff in Hc as [_ Hc]. apply Z.leb_le in Hc.
  unfold MAXYEAR in Hc. destruct Hy as [Hy1 Hy2].
  split; [lia |]. intros HN'. specialize (Hy2 ltac:(lia)). lia.
Qed.

Lemma digits_fraction ip fp :
  all_digits ip = true → all_digits fp = true →
  0 ≤ int_of_digits ip ∧ 0 < 10 ^ Z.of_nat (length fp)
  ∧ 0 ≤ int_of_digits fp < 10 ^ Z.of_nat (length fp).
Proof.
  intros Hip Hfp.
  pose proof (int_of_digits_bound ip (all_digits_forallb _ Hip)).
  pose proof (int_of_digits_bound fp (all_digits_forallb _ Hfp)).
  split; [lia |]. split; [apply Z.pow_pos_nonneg; lia | done].
Qed.

(** X12. A line of the log whose timestamp has at most six digits after
    the point and fewer than [2^33] whole seconds is parsed, and the
    event holds its fields: the time of the whole seconds, the two
    addresses as they are written, and the value of each port. *)
Theorem well_formed_line_is_parsed
    ip fp uid sa sp da dp w1 w2 w3 w4 w5 rest self tmpl :
  well_formed ip fp uid sa sp da dp w1 w2 w3 w4 w5 rest →
  (length fp ≤ 6)%nat → int_of_digits ip < 2 ^ 33 →
  store self !! parsed_event self = Some tmpl →
  ∃ self',
    _parse_log (zeek_line ip fp uid sa sp da dp w1 w2 w3 w4 w5 rest) self
    = (self', Return (Some (parsed_event self)))
    ∧ store self' !! parsed_event self
      = Some (<["dest_port" := VInt (int_of_digits dp)]>
              (<["dest_addr" := VStr da]>
              (<["src_port" := VInt (int_of_digits sp)]>
              (<["src_addr" := VStr sa]>
              (<["alert_time" := VStr (iso_of_epoch (int_of_digits ip))]>
                 tmpl))))).
Proof.
  intros Hwf Hlen Hsecs Htmpl.
  pose proof (well_formed_matches _ _ _ _ _ _ _ _ _ _ _ _ _ Hwf) as Hg.
  apply well_formed_digits in Hwf as (Hip & Hfp & Hsp & Hdp).
  destruct (digits_fraction ip fp Hip Hfp) as (Hn & Hq & HF).
  assert (Hq6 : 10 ^ Z.of_nat (length fp) ≤ 10 ^ 6)
    by (apply Z.pow_le_mono_r; lia).
  destruct (seconds_of_short_fraction (int_of_digits ip) (int_of_digits fp)
              (10 ^ Z.of_nat (length fp))) as (us & Hus & _); [lia.. |].
  destruct (utcfromtimestamp_of_seconds _ _ _ Hus) as (dt & Hdt & Hiso); [lia |].
  rewrite _parse_log_cases, Hg, event_fields_zeek_groups, Hdt by done.
  eexists. split; [reflexivity |].
  rewrite (after_parse_store _ _ _ Htmpl). by rewrite Hiso.
Qed.

Lemma well_formed_line_is_parsed_witness :
  let sp := " "%char in
  well_formed (lit "1700000000") (lit "5") (lit "alert") (lit "10.0.0.1")
    (lit "443") (lit "10.0.0.2") (lit "51000") sp sp sp sp sp (lit " extra")
  ∧ zeek_line (lit "1700000000") (lit "5") (lit "alert") (lit "10.0.0.1")
      (lit "443") (lit "10.0.0.2") (lit "51000") sp sp sp sp sp (lit " extra")
    = line1
  ∧ (_parse_log line1 (sample_plugin "alert")).2 = Return (Some 1%positive).
Proof.
  cbv zeta.
  assert (Hwf : well_formed (lit "1700000000") (lit "5") (lit "alert")
    (lit "10.0.0.1") (lit "443") (lit "10.0.0.2") (lit "51000")
    " "%char " "%char " "%char " "%char " "%char (lit " extra")).
  { unfold well_formed. repeat split; try reflexivity. left. reflexivity. }
  assert (Hlen : (length (lit "5") ≤ 6)%nat) by (cbn; lia).
  assert (Hsecs : int_of_digits (lit "1700000000") < 2 ^ 33)
    by (vm_compute; reflexivity).
  assert (Htmpl : store (sample_plugin "alert") !! parsed_event (sample_plugin "alert")
               = Some ({[ "protocol" := VStr (lit "tcp") ]} : dict))
    by reflexivity.
  destruct (well_formed_line_is_parsed _ _ _ _ _ _ _ _ _ _ _ _ _ _ _
              Hwf Hlen Hsecs Htmpl) as (self' & Hp & _).
  split; [exact Hwf |]. split; [reflexivity |].
  change line1 with (zeek_line (lit "1700000000") (lit "5") (lit "alert")
    (lit "10.0.0.1") (lit "443") (lit "10.0.0.2") (lit "51000")
    " "%char " "%char " "%char " "%char " "%char (lit " extra")).
  rewrite Hp. reflexivity.
Defined.

(** X13. A line of the log whose timestamp is of the year 10000 or
    later is not parsed: [utcfromtimestamp] is called outside the [try],
    so [_parse_log] raises, having logged one DEBUG record and written
    nothing. *)
Theorem timestamp_after_9999_raises
    ip fp uid sa sp da dp w1 w2 w3 w4 w5 rest self :
  well_formed ip fp uid sa sp da dp w1 w2 w3 w4 w5 rest →
  253402300800 ≤ int_of_digits ip →
  _parse_log (zeek_line ip fp uid sa sp da dp w1 w2 w3 w4 w5 rest) self
  = ((log_ DEBUG "data parsed from log: %s" self).1, Raise OutOfRange).
Proof.
  intros Hwf Hsecs.
  pose proof (well_formed_matches _ _ _ _ _ _ _ _ _ _ _ _ _ Hwf) as Hg.
  apply well_formed_digits in Hwf as (Hip & Hfp & Hsp & Hdp).
  destruct (digits_fraction ip fp Hip Hfp) as (Hn & Hq & HF).
  rewrite _parse_log_cases, Hg, event_fields_zeek_groups by done.
  destruct (utcfromtimestamp _) as [dt | e] eqn:Hdt.
  - exfalso.
    assert (Hfin : int_of_digits ip < 2 ^ 53 ∨ 2 ^ 53 ≤ int_of_digits ip) by lia.
    set (q := 10 ^ Z.of_nat (length fp)) in *.
    destruct Hfin as [Hfin | Hfin].
    + apply (utcfromtimestamp_year _ q (int_of_digits ip)) in Hdt
        as [_ Hdt]; [by apply Hdt | done | lia |].
      assert (0 ≤ int_of_digits ip * q) by (apply Z.mul_nonneg_nonneg; lia).
      lia.
    + apply (utcfromtimestamp_year _ q 253402300800) in Hdt
        as [_ Hdt]; [by apply Hdt | done | done |].
      assert (253402300800 * q ≤ int_of_digits ip * q)
        by (apply Z.mul_le_mono_nonneg_r; lia).
      lia.
  - by apply utcfromtimestamp_raises in Hdt as ->.
Qed.

Lemma timestamp_after_9999_raises_witness :
  let sp := " "%char in
  well_formed (lit "253402300800") (lit "0") (lit "alert") (lit "10.0.0.1")
    (lit "443") (lit "10.0.0.2") (lit "80") sp sp sp sp sp []
  ∧ 253402300800 ≤ int_of_digits (lit "253402300800")
  ∧ (_parse_log (lit "253402300800.0 alert 10.0.0.1 443 10.0.0.2 80")
       (sample_plugin "alert")).2 = Raise OutOfRange.
Proof.
  cbv zeta.
  assert (Hwf : well_formed (lit "253402300800") (lit "0") (lit "alert")
    (lit "10.0.0.1") (lit "443") (lit "10.0.0.2") (lit "80")
    " "%char " "%char " "%char " "%char " "%char []).
  { unfold well_formed. repeat split; try reflexivity. right. exact I. }
  assert (Hsecs : 253402300800 ≤ int_of_digits (lit "253402300800"))
    by (vm_compute; discriminate).
  split; [exact Hwf |]. split; [exact Hsecs |].
  change (lit "253402300800.0 alert 10.0.0.1 443 10.0.0.2 80")
    with (zeek_line (lit "253402300800") (lit "0") (lit "alert")
            (lit "10.0.0.1") (lit "443") (lit "10.0.0.2") (lit "80")
            " "%char " "%char " "%char " "%char " "%char []).
  rewrite (timestamp_after_9999_raises _ _ _ _ _ _ _ _ _ _ _ _ _
             (sample_plugin "alert") Hwf Hsecs).
  reflexivity.
Defined.

(** X14. The [alert_time] of a parsed event is never before 1970: its
    first four characters spell a year from 1970 to 9999. *)
Theorem alert_time_year_from_1970 log self self' ev tmpl :
  store self !! parsed_event self = Some tmpl →
  _parse_log log self = (self', Return (Some ev)) →
  ∃ alert_time,
    store self' !! ev ≫= (.!! "alert_time") = Some (VStr alert_time)
    ∧ 1970 ≤ int_of_digits (take 4 alert_time) ≤ 9999.
Proof.
  intros Htmpl Hparse.
  apply _parse_log_success in Hparse as (g & fs & Hg & Hfs & -> & ->).
  destruct (RE_SIG_LOG_shape log g Hg)
    as (ip & fp & uid & sa & sp & da & dp & w1 & w2 & w3 & w4 & w5 & rest
        & _ & Hwf & ->).
  apply well_formed_digits in Hwf as (Hip & Hfp & Hsp & Hdp).
  destruct (digits_fraction ip fp Hip Hfp) as (Hn & Hq & HF).
  rewrite event_fields_zeek_groups in Hfs by done.
  destruct (utcfromtimestamp _) as [dt | e] eqn:Hdt; [| done].
  injection Hfs as <-.
  apply (utcfromtimestamp_year _ _ 0) in Hdt as [Hy _]; [| done | done | ].
  2: { assert (0 ≤ int_of_digits ip * 10 ^ Z.of_nat (length fp))
         by (apply Z.mul_nonneg_nonneg; lia). lia. }
  exists (isoformat_seconds dt).
  rewrite (after_parse_store _ _ _ Htmpl). cbn [mbind option_bind].
  split.
  - cbn [dict_update foldl fst snd]. by simplify_map_eq.
  - destruct (fmt4_digits (year dt)) as (a & b & c & d & E & _ & V); [lia |].
    unfold isoformat_seconds. rewrite E. cbn [app firstn].
    rewrite firstn_O. by rewrite V.
Qed.

Lemma alert_time_year_from_1970_witness :
  let self := sample_plugin "alert" in
  store self !! parsed_event self = Some {[ "protocol" := VStr (lit "tcp") ]}
  ∧ (_parse_log line1 self).2 = Return (Some 1%positive)
  ∧ ∃ alert_time,
      store (_parse_log line1 self).1 !! 1%positive ≫= (.!! "alert_time")
      = Some (VStr alert_time)
      ∧ 1970 ≤ int_of_digits (take 4 alert_time) ≤ 9999.
Proof.
  cbv zeta.
  assert (H1 : store (sample_plugin "alert") !! parsed_event (sample_plugin "alert")
               = Some ({[ "protocol" := VStr (lit "tcp") ]} : dict))
    by reflexivity.
  assert (H2 : _parse_log line1 (sample_plugin "alert")
               = ((_parse_log line1 (sample_plugin "alert")).1,
                  Return (Some 1%positive)))
    by (vm_compute; reflexivity).
  split; [exact H1 |]. split; [rewrite H2; reflexivity |].
  exact (alert_time_year_from_1970 _ _ _ _ _ H1 H2).
Defined.
